(** * The conversation turn orchestrator of [useConversationLoop.ts]

    A shallow embedding of the React hook [useConversationLoop]
    (src/hooks/useConversationLoop.ts) and of the types it imports from
    [lib/types]: the hook's state cells become a record, its [async]
    callbacks become computations in a small state-and-exception monad
    that also records, in order, every adapter request and every state
    setter the callback performs.  A detached filler task is kept as the
    list of the events it still has to perform; it advances only while
    the main callback is suspended at an [await], and a setter it calls
    acts on the state of the hook like any other. *)

From Stdlib Require Import List String Ascii NArith ZArith Bool Lia.
From Stdlib Require Import DecimalString.
Import ListNotations.

Set Implicit Arguments.

(** ** JavaScript strings *)

(** A JavaScript string is a sequence of UTF-16 code units. *)
Definition jsstring := list N.

(** String literals of the source (all of them ASCII). *)
Definition js (s : string) : jsstring :=
  map N_of_ascii (list_ascii_of_string s).

(** ECMAScript [WhiteSpace] and [LineTerminator] code units, the ones
    [String.prototype.trim] strips. *)
Definition isWhiteSpace (c : N) : bool :=
  ((9 <=? c) && (c <=? 13) || (c =? 32) || (c =? 160) || (c =? 5760)
   || (8192 <=? c) && (c <=? 8202) || (c =? 8232) || (c =? 8233)
   || (c =? 8239) || (c =? 8287) || (c =? 12288) || (c =? 65279))%N.

Fixpoint trimStart (s : jsstring) : jsstring :=
  match s with
  | c :: t => if isWhiteSpace c then trimStart t else s
  | [] => []
  end.

Definition trimEnd (s : jsstring) : jsstring := rev (trimStart (rev s)).

Definition trim (s : jsstring) : jsstring := trimEnd (trimStart s).

(** Truthiness of a string (the empty string is falsy) and of an optional
    string ([undefined], [null] and the empty string are falsy). *)
Definition truthy (s : jsstring) : bool :=
  match s with [] => false | _ :: _ => true end.

Definition truthyOpt (o : option jsstring) : bool :=
  match o with Some s => truthy s | None => false end.

Definition jsstring_eqb (a b : jsstring) : bool :=
  if list_eq_dec N.eq_dec a b then true else false.

Fixpoint startsWith (needle hay : jsstring) : bool :=
  match needle, hay with
  | [], _ => true
  | _ :: _, [] => false
  | a :: n', b :: h' => (a =? b)%N && startsWith n' h'
  end.

(** [hay.includes(needle)] *)
Fixpoint includes (needle hay : jsstring) : bool :=
  startsWith needle hay ||
  match hay with
  | [] => false
  | _ :: t => includes needle t
  end.

(** [GetSubstitution] for a string pattern (no capture groups): in the
    replacement text [$$] is a dollar sign, [$&] the matched text,
    [$`] what precedes the match and [$'] what follows it; any other
    [$] stands for itself. *)
Fixpoint GetSubstitution (matched before after repl : jsstring) : jsstring :=
  match repl with
  | [] => []
  | 36%N :: rest =>
      match rest with
      | 36%N :: r => 36%N :: GetSubstitution matched before after r
      | 38%N :: r => matched ++ GetSubstitution matched before after r
      | 96%N :: r => before ++ GetSubstitution matched before after r
      | 39%N :: r => after ++ GetSubstitution matched before after r
      | _ => 36%N :: GetSubstitution matched before after rest
      end
  | c :: rest => c :: GetSubstitution matched before after rest
  end.

(** [hay.replaceAll(needle, repl)] for a non-empty [needle]: matches are
    found left to right and do not overlap.  [skip] counts the code
    units of the current match still to be dropped, [before] is the part
    of the subject already passed (reversed). *)
Fixpoint replaceAll_from (needle repl : jsstring) (skip : nat)
    (before hay : jsstring) : jsstring :=
  match hay with
  | [] => []
  | c :: t =>
      match skip with
      | S k => replaceAll_from needle repl k (c :: before) t
      | O =>
          if startsWith needle hay
          then GetSubstitution needle (rev before)
                 (skipn (List.length needle) hay) repl
               ++ replaceAll_from needle repl (List.length needle - 1)
                    (c :: before) t
          else c :: replaceAll_from needle repl O (c :: before) t
      end
  end.

Definition replaceAll (needle repl hay : jsstring) : jsstring :=
  replaceAll_from needle repl O [] hay.

(** [s.slice(0, n)] *)
Definition slice0 (n : nat) (s : jsstring) : jsstring := firstn n s.

(** Decimal rendering of an integer, as a template literal does it. *)
Definition decimal (z : Z) : jsstring :=
  js (NilZero.string_of_int (Z.to_int z)).

(** ** The types of [lib/types] *)

Module Role.
Inductive ConversationRole := user | assistant.
Definition toString (r : ConversationRole) : jsstring :=
  match r with user => js "user" | assistant => js "assistant" end.
End Role.
Export Role(ConversationRole).

Module Msg.
Record ConversationMessage := {
  id : jsstring;
  role : ConversationRole;
  text : jsstring;
  createdAt : Z
}.
End Msg.
Export Msg(ConversationMessage).

Module UiStatus.
Inductive UiStatus :=
  idle | connecting | listening | thinking | speaking | error.
End UiStatus.
Export UiStatus(UiStatus).

(** [Record<string, unknown>]: the values are passed through untouched
    and kept here in serialised form. *)
Definition SubmitData := list (jsstring * jsstring).

Module Card.
Record CopilotSigninCard := {
  title : jsstring;
  message : jsstring;
  tokenExchangeResourceUri : option jsstring;
  tokenExchangeResourceId : option jsstring;
  connectionName : option jsstring;
  submitAction : option SubmitData
}.
End Card.
Export Card(CopilotSigninCard).

Module Resp.
Record CopilotMessageResponse := {
  botReply : jsstring;
  speechText : option jsstring;
  signinCard : option CopilotSigninCard
}.
End Resp.
Export Resp(CopilotMessageResponse).

(** ** Promises and adapters *)

(** How a promise settles; a thrown [Error] is kept as its [message]. *)
Inductive Outcome (A : Type) : Type :=
| Resolved (a : A)
| Rejected (msg : jsstring).
Arguments Resolved {A} a.
Arguments Rejected {A} msg.

Record ExchangeParams := {
  connectionToken : jsstring;
  xConnectionName : jsstring;
  xTokenExchangeResourceId : jsstring
}.

(** [UseConversationLoopOptions]: each adapter is given by the way its
    promise settles for the arguments it is called with. *)
Record UseConversationLoopOptions := {
  sendCopilotMessage : jsstring -> Outcome CopilotMessageResponse;
  speakAudio : jsstring -> Outcome unit;
  interruptSpeech : option (Outcome unit);
  acquireConnectionToken : option (jsstring -> Outcome (option jsstring));
  exchangeConnectionToken :
    option (ExchangeParams -> Outcome CopilotMessageResponse);
  submitCardAction : option (SubmitData -> Outcome CopilotMessageResponse)
}.

(** What [fetch("/api/tts/synthesize")] resolves with: the [ok] flag and
    the two ways of reading the body, [text()] and [json()] (of the
    latter only the [audio] member is used). *)
Record TtsResponse := {
  ok : bool;
  body_text : Outcome jsstring;
  body_json : Outcome (option jsstring)
}.

(** The two strands of control of a turn. *)
Inductive Branch := Main | Filler.

(** The clock and random-number readings that go into one message. *)
Record Stamp := {
  id_now : Z;
  id_random : jsstring;
  created_now : Z
}.

(** Everything outside the hook.  One operation issues each request at
    most once per branch, so the adapters' answers are indexed by the
    branch that asks; the stamp of a message is indexed by its position
    in the history. *)
Record World := {
  optionsRef : Branch -> UseConversationLoopOptions;
  fetch_tts : Branch -> jsstring -> Outcome TtsResponse;
  stamp : nat -> Stamp
}.

(** ** The hook's state and what an observer sees of a run *)

(** The six [useState] cells.  A callback reads [isProcessing] and
    [signinCard] from the render it was created in.  For [runTurn] the
    render is made explicit ([runTurnOf]); the card operations are those
    of the latest render, which read the current cell. *)
Record Session := {
  history : list ConversationMessage;
  status : UiStatus;
  isProcessing : bool;
  error : option jsstring;
  signinCard : option CopilotSigninCard;
  isExchanging : bool
}.

(** The state of [useState]'s initial values. *)
Definition initialSession : Session :=
  {| history := []; status := UiStatus.idle; isProcessing := false;
     error := None; signinCard := None; isExchanging := false |}.

Inductive Update :=
| appendHistory (m : ConversationMessage)
| resetHistory
| setStatus (s : UiStatus)
| setIsProcessing (b : bool)
| setError (e : option jsstring)
| setSigninCard (c : option CopilotSigninCard)
| setIsExchanging (b : bool).

Definition apply (u : Update) (s : Session) : Session :=
  match u with
  | appendHistory m =>
      {| history := history s ++ [m]; status := status s;
         isProcessing := isProcessing s; error := error s;
         signinCard := signinCard s; isExchanging := isExchanging s |}
  | resetHistory =>
      {| history := []; status := status s;
         isProcessing := isProcessing s; error := error s;
         signinCard := signinCard s; isExchanging := isExchanging s |}
  | setStatus st =>
      {| history := history s; status := st;
         isProcessing := isProcessing s; error := error s;
         signinCard := signinCard s; isExchanging := isExchanging s |}
  | setIsProcessing b =>
      {| history := history s; status := status s;
         isProcessing := b; error := error s;
         signinCard := signinCard s; isExchanging := isExchanging s |}
  | setError e =>
      {| history := history s; status := status s;
         isProcessing := isProcessing s; error := e;
         signinCard := signinCard s; isExchanging := isExchanging s |}
  | setSigninCard c =>
      {| history := history s; status := status s;
         isProcessing := isProcessing s; error := error s;
         signinCard := c; isExchanging := isExchanging s |}
  | setIsExchanging b =>
      {| history := history s; status := status s;
         isProcessing := isProcessing s; error := error s;
         signinCard := signinCard s; isExchanging := b |}
  end.

Inductive Request :=
| send_message (text : jsstring)
| tts_fetch (text : jsstring)
| play_audio (audio : jsstring)
| interrupt
| acquire_token (scope : jsstring)
| exchange_token (p : ExchangeParams)
| submit_action (data : SubmitData).

Inductive Event :=
| Req (b : Branch) (r : Request)   (* branch [b] calls an adapter *)
| Set_ (u : Update)                (* a state setter is called *)
| FillerSettled (p : nat)          (* the filler promise [p] settles *)
| Joined (p : nat).                (* [await] of the promise [p] returns *)

(** ** The monad of [async] callbacks *)

(** A detached task (a call of an [async] function that is not awaited
    at the place of the call): the steps it still has to take, and the
    way its promise settles in the end. *)
Record Task := {
  todo : list Event;
  settles : Outcome unit
}.

(** [pending] holds the detached tasks in the order they were started;
    a promise is the position of its task in that list.  [sched] says,
    for each coming suspension of the main callback, which tasks take a
    step while it is suspended, and in which order. *)
Record Machine := {
  session : Session;
  trace : list Event;
  pending : list Task;
  sched : list (list nat)
}.

Definition Async (A : Type) : Type := Machine -> Outcome A * Machine.

Definition ret {A} (a : A) : Async A := fun m => (Resolved a, m).

Definition throw {A} (msg : jsstring) : Async A := fun m => (Rejected msg, m).

Definition bind {A B} (c : Async A) (k : A -> Async B) : Async B :=
  fun m =>
    match c m with
    | (Resolved a, m') => k a m'
    | (Rejected e, m') => (Rejected e, m')
    end.

Notation "x <- c ;; k" := (bind c (fun x => k))
  (at level 61, c at next level, right associativity).
Notation "c ;; k" := (bind c (fun _ => k))
  (at level 61, right associativity).

(** [try { c } catch (e) { h e }] *)
Definition tryCatch {A} (c : Async A) (h : jsstring -> Async A) : Async A :=
  fun m =>
    match c m with
    | (Resolved a, m') => (Resolved a, m')
    | (Rejected e, m') => h e m'
    end.

(** [try { c } finally { f }] *)
Definition tryFinally {A} (c : Async A) (f : Async unit) : Async A :=
  fun m =>
    let '(r, m') := c m in
    match f m' with
    | (Resolved _, m'') => (r, m'')
    | (Rejected e, m'') => (Rejected e, m'')
    end.

Definition emit (e : Event) : Async unit :=
  fun m =>
    (Resolved tt,
     {| session := session m; trace := trace m ++ [e];
        pending := pending m; sched := sched m |}).

(** A state setter; functional updates ([prev => ...]) and plain ones
    alike act on the latest state. *)
Definition set (u : Update) : Async unit :=
  fun m =>
    (Resolved tt,
     {| session := apply u (session m); trace := trace m ++ [Set_ u];
        pending := pending m; sched := sched m |}).

(** What an event of a detached task does to the state when it takes
    place: a setter call acts on the state of that moment. *)
Definition perform (e : Event) (s : Session) : Session :=
  match e with
  | Set_ u => apply u s
  | _ => s
  end.

Definition replay (es : list Event) (s : Session) : Session :=
  fold_left (fun s e => perform e s) es s.

Fixpoint update {A} (i : nat) (x : A) (l : list A) : list A :=
  match l, i with
  | [], _ => []
  | _ :: t, O => x :: t
  | a :: t, S j => a :: update j x t
  end.

(** The task at position [p] takes its next step, if it has one. *)
Definition step (p : nat) (m : Machine) : Machine :=
  match nth_error (pending m) p with
  | Some t =>
      match todo t with
      | e :: rest =>
          {| session := perform e (session m);
             trace := trace m ++ [e];
             pending := update p {| todo := rest; settles := settles t |}
                          (pending m);
             sched := sched m |}
      | [] => m
      end
  | None => m
  end.

Definition advance (picks : list nat) (m : Machine) : Machine :=
  fold_left (fun m p => step p m) picks m.

(** While the callback is suspended the detached tasks may advance. *)
Definition yield (m : Machine) : Machine :=
  match sched m with
  | [] => m
  | picks :: rest =>
      advance picks
        {| session := session m; trace := trace m; pending := pending m;
           sched := rest |}
  end.

(** [await p] for a promise settling as [o]. *)
Definition await {A} (o : Outcome A) : Async A := fun m => (o, yield m).

(** [await adapter(args)] *)
Definition request {A} (b : Branch) (r : Request) (o : Outcome A) : Async A :=
  emit (Req b r) ;; await o.

(** The run of a task on its own, from the state [s]: the events of the
    run and the outcome of the task.  (The tasks of the hook do not read
    the state.) *)
Definition solo (s : Session) : Machine :=
  {| session := s; trace := []; pending := []; sched := [] |}.

(** What the detached task with promise [p] contributes: the events of
    its own run, closed by the settlement of its promise. *)
Definition taskEvents (p : nat) (task : Async unit) (s : Session)
  : list Event :=
  trace (snd (task (solo s))) ++ [FillerSettled p].

(** Calling an [async] function without awaiting it: the call returns a
    promise.  The task runs up to its first suspension at once (every
    event of a task of the hook is a request, after which it is
    suspended); the rest, ending with the settlement of its promise, is
    left pending. *)
Definition spawn (task : Async unit) : Async nat :=
  fun m =>
    let p := List.length (pending m) in
    (Resolved p,
     step p
       {| session := session m; trace := trace m;
          pending := pending m
                     ++ [{| todo := taskEvents p task (session m);
                            settles := fst (task (solo (session m))) |}];
          sched := sched m |}).

(** What the task at position [p] still has to do, and the tasks once
    it has done it. *)
Definition remaining (p : nat) (tasks : list Task) : list Event :=
  match nth_error tasks p with
  | Some t => todo t
  | None => []
  end.

Definition finished (p : nat) (tasks : list Task) : list Task :=
  match nth_error tasks p with
  | Some t => update p {| todo := []; settles := settles t |} tasks
  | None => tasks
  end.

Definition settlement (p : nat) (tasks : list Task) : Outcome unit :=
  match nth_error tasks p with
  | Some t => settles t
  | None => Resolved tt
  end.

(** [await p] for the promise of a detached task: the callback is
    suspended until the task is through, and resumes with its
    outcome. *)
Definition join (p : nat) : Async unit :=
  fun m =>
    let m1 := yield m in
    (settlement p (pending m1),
     {| session := replay (remaining p (pending m1)) (session m1);
        trace := trace m1 ++ remaining p (pending m1);
        pending := finished p (pending m1);
        sched := sched m1 |}).

(** [await fillerPromise.catch(() => {})] *)
Definition awaitFiller (fillerPromise : nat) : Async unit :=
  tryCatch (join fillerPromise) (fun _ => ret tt) ;;
  emit (Joined fillerPromise).

Definition getSession : Async Session := fun m => (Resolved (session m), m).

(** ** The hook *)

Section Hook.

(** [process.env.NEXT_PUBLIC_FILLER_TEXT_TEMPLATE] *)
Variable NEXT_PUBLIC_FILLER_TEXT_TEMPLATE : option jsstring.

Variable w : World.

(** [process.env.NEXT_PUBLIC_FILLER_TEXT_TEMPLATE?.trim()], or the empty
    string when that is undefined or empty. *)
Definition FILLER_TEXT_TEMPLATE : jsstring :=
  match NEXT_PUBLIC_FILLER_TEXT_TEMPLATE with
  | Some t => if truthy (trim t) then trim t else []
  | None => []
  end.

Definition message (st : Stamp) (role : ConversationRole) (text : jsstring)
  : ConversationMessage :=
  {| Msg.id := Role.toString role ++ js "-" ++ decimal (id_now st)
               ++ js "-" ++ id_random st;
     Msg.role := role;
     Msg.text := text;
     Msg.createdAt := created_now st |}.

(** [setHistory((prev) => [...prev, message(role, text)])] *)
Definition pushMessage (role : ConversationRole) (text : jsstring)
  : Async unit :=
  s <- getSession ;;
  set (appendHistory
         (message (stamp w (List.length (history s))) role text)).

Definition synthesizeSpeech (b : Branch) (text : jsstring) : Async jsstring :=
  response <- request b (tts_fetch text) (fetch_tts w b text) ;;
  if negb (ok response) then
    body <- await (body_text response) ;;
    throw body
  else
    payload <- await (body_json response) ;;
    match payload with
    | Some audio =>
        if truthy audio then ret audio
        else throw (js "TTS route did not return audio")
    | None => throw (js "TTS route did not return audio")
    end.

(** [speechText || displayText] *)
Definition orElse (speechText : option jsstring) (displayText : jsstring)
  : jsstring :=
  match speechText with
  | Some t => if truthy t then t else displayText
  | None => displayText
  end.

Definition processBotReply (displayText : jsstring)
    (speechText : option jsstring) : Async unit :=
  pushMessage Role.assistant displayText ;;
  set (setStatus UiStatus.speaking) ;;
  audio <- synthesizeSpeech Main (orElse speechText displayText) ;;
  request Main (play_audio audio) (speakAudio (optionsRef w Main) audio) ;;
  set (setStatus UiStatus.listening).

Definition speakFiller (userText : jsstring) : Async unit :=
  if negb (truthy FILLER_TEXT_TEMPLATE) then ret tt
  else
    tryCatch
      (let truncated :=
         if (80 <? List.length userText)%nat
         then slice0 80 userText ++ js "..."
         else userText in
       let fillerText :=
         if includes (js "{{input}}") FILLER_TEXT_TEMPLATE
         then replaceAll (js "{{input}}") truncated FILLER_TEXT_TEMPLATE
         else FILLER_TEXT_TEMPLATE in
       audio <- synthesizeSpeech Filler fillerText ;;
       request Filler (play_audio audio)
         (speakAudio (optionsRef w Filler) audio))
      (fun _ => ret tt).

Definition trySilentExchange (card : CopilotSigninCard)
  : Async (option CopilotMessageResponse) :=
  match Card.tokenExchangeResourceUri card,
        Card.tokenExchangeResourceId card,
        Card.connectionName card,
        acquireConnectionToken (optionsRef w Main),
        exchangeConnectionToken (optionsRef w Main) with
  | Some uri, Some rid, Some cname, Some acquire, Some exchange =>
      if negb (truthy uri) || negb (truthy rid) || negb (truthy cname)
      then ret None
      else
        connectionToken <- request Main (acquire_token uri) (acquire uri) ;;
        if negb (truthyOpt connectionToken) then ret None
        else
          let p := {| connectionToken :=
                        match connectionToken with
                        | Some t => t
                        | None => []
                        end;
                      xConnectionName := cname;
                      xTokenExchangeResourceId := rid |} in
          r <- request Main (exchange_token p) (exchange p) ;;
          ret (Some r)
  | _, _, _, _, _ => ret None
  end.

(** [nextSigninCard?.tokenExchangeResourceUri] as a condition *)
Definition hasExchangeUri (c : option CopilotSigninCard) : bool :=
  match c with
  | Some card => truthyOpt (Card.tokenExchangeResourceUri card)
  | None => false
  end.

(** The body of [runTurn]'s [try] block.  [returned] says whether the
    block was left by its [return] (the silent exchange handled the
    turn); what follows in the block is then skipped. *)
Definition runTurn_try (cleanText : jsstring) : Async unit :=
  fillerPromise <- spawn (speakFiller cleanText) ;;
  response <- request Main (send_message cleanText)
                (sendCopilotMessage (optionsRef w Main) cleanText) ;;
  match interruptSpeech (optionsRef w Main) with
  | Some accepted => request Main interrupt accepted
  | None => ret tt
  end ;;
  awaitFiller fillerPromise ;;
  set (setStatus UiStatus.thinking) ;;
  let botReply := trim (Resp.botReply response) in
  let nextSigninCard := Resp.signinCard response in
  returned <-
    match nextSigninCard with
    | Some card =>
        if hasExchangeUri nextSigninCard then
          exchangeResult <- trySilentExchange card ;;
          match exchangeResult with
          | Some result =>
              let exchangeReply := trim (Resp.botReply result) in
              (if truthy exchangeReply
               then processBotReply exchangeReply
                      (option_map trim (Resp.speechText result))
               else set (setStatus UiStatus.listening)) ;;
              ret true
          | None => ret false
          end
        else ret false
    | None => ret false
    end ;;
  if (returned : bool) then ret tt
  else
    match nextSigninCard with
    | Some _ => set (setSigninCard nextSigninCard)
    | None => ret tt
    end ;;
    if truthy botReply
    then processBotReply botReply (option_map trim (Resp.speechText response))
    else
      match nextSigninCard with
      | Some card =>
          if truthy (trim (Card.message card))
          then pushMessage Role.assistant (trim (Card.message card))
          else ret tt
      | None => ret tt
      end ;;
      set (setStatus UiStatus.listening).

(** The [runTurn] of a render in which the cell [isProcessing] had the
    value [seen]: the callback is re-created when that cell changes
    (it is among the dependencies of [useCallback]), and its guard tests
    the value of the render that created it. *)
Definition runTurnOf (seen : bool) (userText : jsstring) : Async unit :=
  let cleanText := trim userText in
  if negb (truthy cleanText) || seen then ret tt
  else
    set (setError None) ;;
    set (setSigninCard None) ;;
    set (setIsProcessing true) ;;
    set (setStatus UiStatus.speaking) ;;
    pushMessage Role.user cleanText ;;
    tryFinally
      (tryCatch (runTurn_try cleanText)
         (fun turnError =>
            set (setStatus UiStatus.error) ;;
            set (setError (Some turnError)) ;;
            throw turnError))
      (set (setIsProcessing false)).

(** The [runTurn] of the latest render, the one a caller has that takes
    the callback from the hook's current result: it has seen the current
    value of the cell. *)
Definition runTurn (userText : jsstring) : Async unit :=
  s <- getSession ;;
  runTurnOf (isProcessing s) userText.

Definition completeTokenExchange (connectionToken : jsstring) : Async unit :=
  s <- getSession ;;
  match signinCard s with
  | Some card =>
      match Card.tokenExchangeResourceId card, Card.connectionName card,
            exchangeConnectionToken (optionsRef w Main) with
      | Some rid, Some cname, Some exchange =>
          if negb (truthy rid) || negb (truthy cname)
          then throw (js "No pending signin card with token exchange metadata")
          else
            set (setError None) ;;
            set (setIsExchanging true) ;;
            set (setStatus UiStatus.thinking) ;;
            tryFinally
              (tryCatch
                 (let p := {| connectionToken := connectionToken;
                              xConnectionName := cname;
                              xTokenExchangeResourceId := rid |} in
                  result <- request Main (exchange_token p) (exchange p) ;;
                  set (setSigninCard None) ;;
                  let botReply := trim (Resp.botReply result) in
                  if truthy botReply
                  then processBotReply botReply
                         (option_map trim (Resp.speechText result))
                  else
                    match Resp.signinCard result with
                    | Some card =>
                        set (setSigninCard (Some card)) ;;
                        set (setStatus UiStatus.listening)
                    | None => set (setStatus UiStatus.listening)
                    end)
                 (fun exchangeError =>
                    set (setStatus UiStatus.error) ;;
                    set (setError (Some exchangeError))))
              (set (setIsExchanging false))
      | _, _, _ =>
          throw (js "No pending signin card with token exchange metadata")
      end
  | None => throw (js "No pending signin card with token exchange metadata")
  end.

Definition submitAllowAction : Async unit :=
  s <- getSession ;;
  match signinCard s with
  | Some card =>
      match Card.submitAction card, submitCardAction (optionsRef w Main) with
      | Some data, Some submit =>
          set (setError None) ;;
          set (setIsExchanging true) ;;
          set (setStatus UiStatus.thinking) ;;
          tryFinally
            (tryCatch
               (result <- request Main (submit_action data) (submit data) ;;
                set (setSigninCard None) ;;
                let botReply := trim (Resp.botReply result) in
                if truthy botReply
                then processBotReply botReply
                       (option_map trim (Resp.speechText result))
                else
                  match Resp.signinCard result with
                  | Some card =>
                      set (setSigninCard (Some card)) ;;
                      set (setStatus UiStatus.listening)
                  | None => set (setStatus UiStatus.listening)
                  end)
               (fun submitError =>
                  set (setStatus UiStatus.error) ;;
                  set (setError (Some submitError))))
            (set (setIsExchanging false))
      | _, _ => throw (js "No pending signin card with submit action data")
      end
  | None => throw (js "No pending signin card with submit action data")
  end.

Definition dismissSigninCard : Async unit :=
  set (setSigninCard None) ;;
  set (setStatus UiStatus.listening).

Definition clearHistory : Async unit :=
  set resetHistory ;;
  set (setSigninCard None).

(** [history.length > 0] *)
Definition hasMessages (s : Session) : bool :=
  match history s with [] => false | _ :: _ => true end.

End Hook.

(** ** The caller behind the microphone

    [useDeepgramSTT] registers its handler for transcripts once, when
    listening is started, and the handler calls the [onFinalTranscript]
    of the options it was created with.  [AvatarSession] builds that
    callback from its [conversation.runTurn], so a transcript runs the
    [runTurn] of the render [micRender] in which listening was
    started. *)

Section Microphone.

Variable NEXT_PUBLIC_FILLER_TEXT_TEMPLATE : option jsstring.
Variable w : World.

(** [onFinalTranscript: async (text) => { await conversation.runTurn(text) }] *)
Definition onFinalTranscript (micRender : Session) (text : jsstring)
  : Async unit :=
  runTurnOf NEXT_PUBLIC_FILLER_TEXT_TEMPLATE w (isProcessing micRender) text.

(** The handler of [LiveTranscriptionEvents.Transcript]; [transcript]
    is [data.channel?.alternatives?.[0]?.transcript]. *)
Definition onTranscript (micRender : Session) (is_final : bool)
    (transcript : option jsstring) : Async unit :=
  match option_map trim transcript with
  | Some text =>
      if is_final && truthy text then onFinalTranscript micRender text
      else ret tt
  | None => ret tt
  end.

End Microphone.

(** A run starts with nothing recorded and no detached task. *)
Definition start (schedule : list (list nat)) (s : Session) : Machine :=
  {| session := s; trace := []; pending := []; sched := schedule |}.

(** ** Assertions about runs *)

(** An event that is no call of a state setter. *)
Definition passive (e : Event) : Prop :=
  match e with
  | Set_ _ => False
  | _ => True
  end.

(** All the steps the detached tasks [p] still have to take satisfy
    [P]. *)
Definition allTodo (P : Event -> Prop) (p : list Task) : Prop :=
  Forall (fun t => Forall P (todo t)) p.

(** All recorded events of [m] satisfy [P], and so do the steps its
    detached tasks still have to take, none of which calls a state
    setter. *)
Definition good (P : Event -> Prop) (m : Machine) : Prop :=
  Forall P (trace m) /\ allTodo (fun e => P e /\ passive e) (pending m).

(** [triple P c s Q]: started in a machine that is [good P] and whose
    session is [s], the computation [c] ends in a machine that is still
    [good P], with an outcome and a session related by [Q].  The
    schedule and the detached tasks are arbitrary. *)
Definition triple {A} (P : Event -> Prop) (c : Async A) (s : Session)
    (Q : Outcome A -> Session -> Prop) : Prop :=
  forall m, good P m -> session m = s ->
    good P (snd (c m)) /\ Q (fst (c m)) (session (snd (c m))).

(** [wp c Q m]: running [c] from the machine [m] ends with an outcome
    and a machine satisfying [Q]. *)
Definition wp {A} (c : Async A) (Q : Outcome A -> Machine -> Prop)
    (m : Machine) : Prop :=
  Q (fst (c m)) (snd (c m)).

(** Two machines in step: the same session, as many detached tasks, and
    no detached task that calls a state setter. *)
Definition inStep (m1 m2 : Machine) : Prop :=
  session m1 = session m2 /\
  List.length (pending m1) = List.length (pending m2) /\
  allTodo passive (pending m1) /\ allTodo passive (pending m2).

(** [sim c1 c2]: from machines in step, [c1] and [c2] settle alike and
    leave machines in step. *)
Definition sim {A} (c1 c2 : Async A) : Prop :=
  forall m1 m2, inStep m1 m2 ->
    fst (c1 m1) = fst (c2 m2) /\ inStep (snd (c1 m1)) (snd (c2 m2)).

(** [moves p es p']: the detached tasks [p] take steps, in some order,
    that perform the events [es] one after the other, and are then
    [p']. *)
Inductive moves : list Task -> list Event -> list Task -> Prop :=
| moves_nil p : moves p [] p
| moves_step p i t e rest es p' :
    nth_error p i = Some t ->
    todo t = e :: rest ->
    moves (update i {| todo := rest; settles := settles t |} p) es p' ->
    moves p (e :: es) p'.

(** The events a filler task can produce. *)
Definition fromFiller (e : Event) : Prop :=
  match e with
  | Req Filler _ => True
  | FillerSettled _ => True
  | _ => False
  end.

(** The events the filler task with promise [p] can produce. *)
Definition fromTask (p : nat) (e : Event) : Prop :=
  match e with
  | Req Filler _ => True
  | FillerSettled q => q = p
  | _ => False
  end.

(** The detached tasks of [m] are filler tasks: each issues requests
    only in the name of the filler, calls no setter, and settles its
    own promise. *)
Fixpoint fillersFrom (p : nat) (tasks : list Task) : Prop :=
  match tasks with
  | [] => True
  | t :: rest => Forall (fromTask p) (todo t) /\ fillersFrom (S p) rest
  end.

Definition fillerTasks (m : Machine) : Prop := fillersFrom 0 (pending m).

(** No interrupt request of the main callback is refused: either no
    [interruptSpeech] adapter is configured or its promise resolves. *)
Definition interruptAccepted (o : UseConversationLoopOptions) : Prop :=
  match interruptSpeech o with
  | Some (Rejected _) => False
  | _ => True
  end.

(** ** Sample worlds, for concrete runs *)

Definition ttsOk : TtsResponse :=
  {| ok := true;
     body_text := Resolved (js "{}");
     body_json := Resolved (Some (js "UklGRiQ=")) |}.

Definition sampleStamp (n : nat) : Stamp :=
  {| id_now := 1700000000000 + Z.of_nat n;
     id_random := js "k3x9qa";
     created_now := 1700000000000 + Z.of_nat n |}.

Definition replyOnly (t : string) : CopilotMessageResponse :=
  {| Resp.botReply := js t; Resp.speechText := None; Resp.signinCard := None |}.

(** A backend that answers every message with [answer], a playback
    adapter that accepts everything, no sign-in adapters. *)
Definition plainOptions (answer : CopilotMessageResponse)
  : UseConversationLoopOptions :=
  {| sendCopilotMessage := fun _ => Resolved answer;
     speakAudio := fun _ => Resolved tt;
     interruptSpeech := Some (Resolved tt);
     acquireConnectionToken := None;
     exchangeConnectionToken := None;
     submitCardAction := None |}.

Definition plainWorld (answer : CopilotMessageResponse) : World :=
  {| optionsRef := fun _ => plainOptions answer;
     fetch_tts := fun _ _ => Resolved ttsOk;
     stamp := sampleStamp |}.

Definition sampleFiller : option jsstring :=
  Some (js "Let me look into {{input}}...").

(** An event that does not make a sign-in card pending. *)
Definition keepsCardHidden (e : Event) : Prop :=
  match e with
  | Set_ (setSigninCard (Some _)) => False
  | _ => True
  end.

(** A sign-in card for an OAuth connection, with everything a token
    exchange needs. *)
Definition oauthCard : CopilotSigninCard :=
  {| Card.title := js "Connect to continue";
     Card.message := js "Sign in to SharePoint to continue.";
     Card.tokenExchangeResourceUri := Some (js "api://sharepoint/.default");
     Card.tokenExchangeResourceId := Some (js "res-42");
     Card.connectionName := Some (js "SharePoint");
     Card.submitAction := None |}.

Definition cardOnly (c : CopilotSigninCard) : CopilotMessageResponse :=
  {| Resp.botReply := []; Resp.speechText := None; Resp.signinCard := Some c |}.

(** The backend asks for a sign-in with [card]; the credential is there
    without interaction and the exchange brings [answer]. *)
Definition silentOptions (card : CopilotSigninCard)
    (answer : CopilotMessageResponse) : UseConversationLoopOptions :=
  {| sendCopilotMessage := fun _ => Resolved (cardOnly card);
     speakAudio := fun _ => Resolved tt;
     interruptSpeech := Some (Resolved tt);
     acquireConnectionToken := Some (fun _ => Resolved (Some (js "eyJ0eXAi")));
     exchangeConnectionToken := Some (fun _ => Resolved answer);
     submitCardAction := None |}.

Definition silentWorld (card : CopilotSigninCard)
    (answer : CopilotMessageResponse) : World :=
  {| optionsRef := fun _ => silentOptions card answer;
     fetch_tts := fun _ _ => Resolved ttsOk;
     stamp := sampleStamp |}.

(** A session in which [card] is pending and nothing is in flight. *)
Definition pendingSession (card : CopilotSigninCard) : Session :=
  {| history := []; status := UiStatus.listening; isProcessing := false;
     error := None; signinCard := Some card; isExchanging := false |}.


(** The backend refuses the exchange. *)
Definition refusingOptions : UseConversationLoopOptions :=
  {| sendCopilotMessage := fun _ => Resolved (cardOnly oauthCard);
     speakAudio := fun _ => Resolved tt;
     interruptSpeech := Some (Resolved tt);
     acquireConnectionToken := Some (fun _ => Resolved None);
     exchangeConnectionToken :=
       Some (fun _ => Rejected (js "Token exchange failed (502)"));
     submitCardAction :=
       Some (fun _ => Rejected (js "Submit action failed (502)")) |}.

Definition refusingWorld : World :=
  {| optionsRef := fun _ => refusingOptions;
     fetch_tts := fun _ _ => Resolved ttsOk;
     stamp := sampleStamp |}.

(** [h'] is [h] with messages appended at the end. *)
Definition grows (h h' : list ConversationMessage) : Prop :=
  exists added, h' = h ++ added.

(** An event that is not a reset of the history. *)
Definition keepsHistory (e : Event) : Prop :=
  match e with
  | Set_ resetHistory => False
  | _ => True
  end.

(** A session in the middle of a turn. *)
Definition busySession : Session :=
  {| history := [message (sampleStamp 0) Role.user (js "hello")];
     status := UiStatus.speaking; isProcessing := true;
     error := None; signinCard := None; isExchanging := false |}.

(** In the trace [t] the silent acquisition for [uri] is requested, and
    nothing before that request makes a card pending. *)
Definition acquiresFirst (uri : jsstring) (t : list Event) : Prop :=
  exists before after,
    t = before ++ Req Main (acquire_token uri) :: after /\
    Forall keepsCardHidden before.

(** A card with a token exchange URI but no connection name. *)
Definition namelessCard : CopilotSigninCard :=
  {| Card.title := js "Connect to continue";
     Card.message := js "Sign in to continue.";
     Card.tokenExchangeResourceUri := Some (js "api://sharepoint/.default");
     Card.tokenExchangeResourceId := Some (js "res-42");
     Card.connectionName := None;
     Card.submitAction := None |}.

(** An event other than a playback request for the reply. *)
Definition notReplyPlayback (e : Event) : Prop :=
  match e with
  | Req Main (play_audio _) => False
  | _ => True
  end.

(** In the events [t] the main callback's wait for the filler promise
    [p] returns at some point; before that point lie the settlement of
    that promise and, if [interrupted], the interrupt request, but no
    playback request for the reply. *)
Definition joinsBeforePlayback (p : nat) (interrupted : bool)
    (t : list Event) : Prop :=
  exists t0 t2,
    t = t0 ++ Joined p :: t2 /\
    Forall notReplyPlayback t0 /\
    In (FillerSettled p) t0 /\
    (interrupted = true -> In (Req Main interrupt) t0).

(** The events recorded after [before] satisfy [holds]. *)
Definition since (before : list Event) (holds : list Event -> Prop)
    (t : list Event) : Prop :=
  exists added, t = before ++ added /\ holds added.

(** The task with promise [p] still has the step [e] to take. *)
Definition owes (e : Event) (p : nat) (tasks : list Task) : Prop :=
  exists t, nth_error tasks p = Some t /\ In e (todo t).

(** The playback adapter without [interruptSpeech]. *)
Definition uninterruptibleOptions (answer : CopilotMessageResponse)
  : UseConversationLoopOptions :=
  {| sendCopilotMessage := fun _ => Resolved answer;
     speakAudio := fun _ => Resolved tt;
     interruptSpeech := None;
     acquireConnectionToken := None;
     exchangeConnectionToken := None;
     submitCardAction := None |}.

Definition uninterruptibleWorld (answer : CopilotMessageResponse) : World :=
  {| optionsRef := fun _ => uninterruptibleOptions answer;
     fetch_tts := fun _ _ => Resolved ttsOk;
     stamp := sampleStamp |}.

(** Two worlds that answer the main callback alike: same adapters, same
    TTS route, same clock and random numbers.  Nothing is said about
    what they answer the filler task. *)
Definition agreeOnMain (w1 w2 : World) : Prop :=
  optionsRef w1 Main = optionsRef w2 Main /\
  (forall t, fetch_tts w1 Main t = fetch_tts w2 Main t) /\
  (forall n, stamp w1 n = stamp w2 n).

(** The request [r], issued by the main callback, fails in world [w]:
    the adapter's promise is rejected or, for the TTS route, the answer
    is one [synthesizeSpeech] throws on (not [ok], unreadable, or
    without audio). *)
Definition failed (w : World) (r : Request) : bool :=
  match r with
  | send_message t =>
      match sendCopilotMessage (optionsRef w Main) t with
      | Rejected _ => true
      | Resolved _ => false
      end
  | tts_fetch t =>
      match fetch_tts w Main t with
      | Rejected _ => true
      | Resolved resp =>
          if ok resp then
            match body_json resp with
            | Resolved (Some audio) => negb (truthy audio)
            | _ => true
            end
          else true
      end
  | play_audio audio =>
      match speakAudio (optionsRef w Main) audio with
      | Rejected _ => true
      | Resolved _ => false
      end
  | interrupt =>
      match interruptSpeech (optionsRef w Main) with
      | Some (Rejected _) => true
      | _ => false
      end
  | acquire_token scope =>
      match acquireConnectionToken (optionsRef w Main) with
      | Some acquire =>
          match acquire scope with Rejected _ => true | Resolved _ => false end
      | None => false
      end
  | exchange_token p =>
      match exchangeConnectionToken (optionsRef w Main) with
      | Some exchange =>
          match exchange p with Rejected _ => true | Resolved _ => false end
      | None => false
      end
  | submit_action data =>
      match submitCardAction (optionsRef w Main) with
      | Some submit =>
          match submit data with Rejected _ => true | Resolved _ => false end
      | None => false
      end
  end.

(** The event is a request of the main callback that fails. *)
Definition mainFailure (w : World) (e : Event) : Prop :=
  match e with
  | Req Main r => failed w r = true
  | _ => False
  end.


(** The text [processBotReply] has synthesized for the reply [r]. *)
Definition speechOf (r : CopilotMessageResponse) : jsstring :=
  orElse (option_map trim (Resp.speechText r)) (trim (Resp.botReply r)).



(** The credential cannot be acquired: the adapter throws. *)
Definition lockedOptions : UseConversationLoopOptions :=
  {| sendCopilotMessage := fun _ => Resolved (cardOnly oauthCard);
     speakAudio := fun _ => Resolved tt;
     interruptSpeech := Some (Resolved tt);
     acquireConnectionToken :=
       Some (fun _ => Rejected (js "monitor_window_timeout"));
     exchangeConnectionToken :=
       Some (fun _ => Resolved (replyOnly "Here are your files."));
     submitCardAction := None |}.

Definition lockedWorld : World :=
  {| optionsRef := fun _ => lockedOptions;
     fetch_tts := fun _ _ => Resolved ttsOk;
     stamp := sampleStamp |}.

(** As [plainWorld], but every request of the filler task fails. *)
Definition fillerDownWorld (answer : CopilotMessageResponse) : World :=
  {| optionsRef := fun b =>
       match b with
       | Main => plainOptions answer
       | Filler =>
           {| sendCopilotMessage := fun _ => Rejected (js "unused");
              speakAudio := fun _ => Rejected (js "Session is not active");
              interruptSpeech := None;
              acquireConnectionToken := None;
              exchangeConnectionToken := None;
              submitCardAction := None |}
       end;
     fetch_tts := fun b _ =>
       match b with
       | Main => Resolved ttsOk
       | Filler => Rejected (js "Failed to fetch")
       end;
     stamp := sampleStamp |}.


(** * Further definitions: callers of the hook and auxiliary notions *)

(** The requests a filler task can issue: one for speech synthesis and
    one for playback. *)
Definition fillerOnly (e : Event) : Prop :=
  match e with
  | Req Filler (tts_fetch _) => True
  | Req Filler (play_audio _) => True
  | FillerSettled _ => True
  | _ => False
  end.

(** How a started turn can end: resolved, listening and without error,
    or rejected with the error recorded. *)
Definition settledWell (o : Outcome unit) (s : Session) : Prop :=
  o = Resolved tt /\ status s = UiStatus.listening /\ error s = None.

Definition settledBadly (o : Outcome unit) (s : Session) : Prop :=
  exists msg,
    o = Rejected msg /\ status s = UiStatus.error /\ error s = Some msg.

(** [h'] is [h] followed by a user message with [text] and at most one
    assistant message. *)
Definition oneExchange (text : jsstring) (h h' : list ConversationMessage)
  : Prop :=
  exists mu,
    Msg.role mu = Role.user /\ Msg.text mu = text /\
    (h' = h ++ [mu] \/
     exists ma, Msg.role ma = Role.assistant /\ h' = h ++ [mu; ma]).

(** An event of a turn in which the main callback asks nothing but the
    backend query for [text], and does not wait for the filler. *)
Definition onlyBackendAsked (text : jsstring) (e : Event) : Prop :=
  match e with
  | Req Main r => r = send_message text
  | Joined _ => False
  | _ => True
  end.

(** The backend cannot be reached. *)
Definition offlineWorld : World :=
  {| optionsRef := fun _ =>
       {| sendCopilotMessage := fun _ => Rejected (js "Failed to fetch");
          speakAudio := fun _ => Resolved tt;
          interruptSpeech := Some (Resolved tt);
          acquireConnectionToken := None;
          exchangeConnectionToken := None;
          submitCardAction := None |};
     fetch_tts := fun _ _ => Resolved ttsOk;
     stamp := sampleStamp |}.

(** The guard of [trySilentExchange], negated: the card carries a
    non-empty URI, resource id and connection name, and both the
    acquisition and the exchange adapter are configured. *)
Definition canTrySilently (o : UseConversationLoopOptions)
    (card : CopilotSigninCard) : bool :=
  truthyOpt (Card.tokenExchangeResourceUri card)
  && truthyOpt (Card.tokenExchangeResourceId card)
  && truthyOpt (Card.connectionName card)
  && match acquireConnectionToken o with Some _ => true | None => false end
  && match exchangeConnectionToken o with Some _ => true | None => false end.

(** Neither a silent acquisition nor a token exchange is requested. *)
Definition noSilentRequest (e : Event) : Prop :=
  match e with
  | Req _ (acquire_token _) => False
  | Req _ (exchange_token _) => False
  | _ => True
  end.

(** No token exchange is requested. *)
Definition noExchangeRequest (e : Event) : Prop :=
  match e with
  | Req _ (exchange_token _) => False
  | _ => True
  end.

(** The main callback asks only for the backend query and the
    interrupt: nothing is synthesized, played, acquired or exchanged. *)
Definition nothingSpoken (e : Event) : Prop :=
  match e with
  | Req Main (send_message _) => True
  | Req Main interrupt => True
  | Req Main _ => False
  | _ => True
  end.

(** A card that only asks to allow a connection (Adaptive Card
    submit action), without token exchange metadata. *)
Definition allowCard : CopilotSigninCard :=
  {| Card.title := js "Allow connection";
     Card.message := js " Allow the agent to use SharePoint? ";
     Card.tokenExchangeResourceUri := None;
     Card.tokenExchangeResourceId := None;
     Card.connectionName := Some (js "SharePoint");
     Card.submitAction := Some [(js "action", js "Allow")] |}.

(** The backend asks for a sign-in with [card]; the credential cannot
    be had without interaction. *)
Definition consentWorld (card : CopilotSigninCard) : World :=
  {| optionsRef := fun _ =>
       {| sendCopilotMessage := fun _ => Resolved (cardOnly card);
          speakAudio := fun _ => Resolved tt;
          interruptSpeech := Some (Resolved tt);
          acquireConnectionToken := Some (fun _ => Resolved None);
          exchangeConnectionToken :=
            Some (fun _ => Resolved (replyOnly "Here are your files."));
          submitCardAction :=
            Some (fun _ => Resolved (replyOnly "Thanks, connected.")) |};
     fetch_tts := fun _ _ => Resolved ttsOk;
     stamp := sampleStamp |}.

(** What [completeTokenExchange] and [submitAllowAction] leave behind
    once the backend has answered with [r]: with reply text, the card is
    cleared and the reply appended (and, if its speech goes through,
    the status is [listening]); without, the history is unchanged, the
    status is [listening] and the pending card is whatever card the
    answer carries. *)
Definition afterAnswer (spoken : bool) (r : CopilotMessageResponse)
    (s s' : Session) : Prop :=
  isExchanging s' = false /\
  isProcessing s' = isProcessing s /\
  if truthy (trim (Resp.botReply r))
  then signinCard s' = None /\
       (exists ma,
          Msg.role ma = Role.assistant /\
          Msg.text ma = trim (Resp.botReply r) /\
          history s' = history s ++ [ma]) /\
       (spoken = true ->
        status s' = UiStatus.listening /\ error s' = None)
  else signinCard s' = Resp.signinCard r /\
       history s' = history s /\
       status s' = UiStatus.listening /\ error s' = None.

(** Speech synthesis and playback of [text] go through in [w]. *)
Definition speaks (w : World) (text : jsstring) : bool :=
  negb (failed w (tts_fetch text)) &&
  match fetch_tts w Main text with
  | Resolved resp =>
      match body_json resp with
      | Resolved (Some audio) => negb (failed w (play_audio audio))
      | _ => false
      end
  | Rejected _ => false
  end.

(** ** Several turns in a row *)

(** One call of [runTurn] per input, each made once the previous one has
    settled (and stopping at the first that rejects). *)
Fixpoint runTurns (filler : option jsstring) (w : World)
    (inputs : list jsstring) : Async unit :=
  match inputs with
  | [] => ret tt
  | userText :: rest =>
      runTurn filler w userText ;; runTurns filler w rest
  end.

(** Roles and texts of a history, in order. *)
Definition transcript (h : list ConversationMessage)
  : list (ConversationRole * jsstring) :=
  map (fun m => (Msg.role m, Msg.text m)) h.

(** The backend answers [userText] with a plain reply: non-empty text,
    no card, and its speech goes through. *)
Definition plainlyAnswered (w : World) (userText : jsstring) : Prop :=
  exists r,
    sendCopilotMessage (optionsRef w Main) (trim userText) = Resolved r /\
    truthy (trim (Resp.botReply r)) = true /\
    Resp.signinCard r = None /\
    speaks w (speechOf r) = true.

(** The trimmed text of the backend's reply to [userText]. *)
Definition replyTo (w : World) (userText : jsstring) : jsstring :=
  match sendCopilotMessage (optionsRef w Main) (trim userText) with
  | Resolved r => trim (Resp.botReply r)
  | Rejected _ => []
  end.

(** What a plain turn on [userText] adds to the transcript. *)
Definition exchangeOf (w : World) (userText : jsstring)
  : list (ConversationRole * jsstring) :=
  [(Role.user, trim userText); (Role.assistant, replyTo w userText)].

(** A backend that repeats what it is told. *)
Definition echoWorld : World :=
  {| optionsRef := fun _ =>
       {| sendCopilotMessage := fun t => Resolved
            {| Resp.botReply := js "You said: " ++ t;
               Resp.speechText := None; Resp.signinCard := None |};
          speakAudio := fun _ => Resolved tt;
          interruptSpeech := Some (Resolved tt);
          acquireConnectionToken := None;
          exchangeConnectionToken := None;
          submitCardAction := None |};
     fetch_tts := fun _ _ => Resolved ttsOk;
     stamp := sampleStamp |}.

(** ** The filler phrase *)

(** [userText.length > 80 ? `${userText.slice(0, 80)}...` : userText],
    the [truncated] of [speakFiller] *)
Definition truncateInput (userText : jsstring) : jsstring :=
  if (80 <? List.length userText)%nat
  then slice0 80 userText ++ js "..."
  else userText.

(** The [fillerText] of [speakFiller] for a given template. *)
Definition fillerTextOf (template userText : jsstring) : jsstring :=
  if includes (js "{{input}}") template
  then replaceAll (js "{{input}}") (truncateInput userText) template
  else template.

(** No request is issued in the name of the filler. *)
Definition noFillerRequest (e : Event) : Prop :=
  match e with
  | Req Filler _ => False
  | _ => True
  end.

(** The code units of [{] and [$]. *)
Definition isBrace (c : N) : Prop := c = 123%N.
Definition isDollar (c : N) : Prop := c = 36%N.

(** The synthesis of the filler text [ft] is requested right before the
    backend is asked about [clean]. *)
Definition fillerLeads (ft clean : jsstring) (t : list Event) : Prop :=
  exists before after,
    t = before
        ++ Req Filler (tts_fetch ft) :: Req Main (send_message clean)
        :: after.

(** ** What is never sent empty *)

(** The main callback sends no empty text to the backend or to the
    synthesis route, asks for no token with an empty scope and exchanges
    no empty token, connection name or resource id; no branch plays an
    empty audio. *)
Definition neverEmpty (e : Event) : Prop :=
  match e with
  | Req Main (send_message text) => truthy text = true
  | Req Main (tts_fetch text) => truthy text = true
  | Req _ (play_audio audio) => truthy audio = true
  | Req _ (acquire_token scope) => truthy scope = true
  | Req _ (exchange_token p) =>
      truthy (connectionToken p) = true /\
      truthy (xConnectionName p) = true /\
      truthy (xTokenExchangeResourceId p) = true
  | _ => True
  end.

(** * The component [AvatarSession]

    The component wires the hook to the other hooks of the page.  Of
    their state it reads the values below; all the error values are of
    type [string | null]. *)

Module SessionStatus.
(** The values [useLiveAvatarSession] gives to its [sessionStatus]. *)
Inductive SessionStatus :=
  idle | requesting_token | starting | ready | stopped | error.
End SessionStatus.
Export SessionStatus(SessionStatus).

Record Surroundings := {
  localError : option jsstring;        (* [localError] *)
  msalError : option jsstring;         (* [msalAuth.error] *)
  avatarError : option jsstring;       (* [avatar.error] *)
  copilotError : option jsstring;      (* [copilot.error] *)
  deepgramError : option jsstring;     (* [deepgram.error] *)
  sessionStatus : SessionStatus;       (* [avatar.sessionStatus] *)
  copilotInitializing : bool;          (* [copilot.isInitializing] *)
  msalInitializing : bool;             (* [msalAuth.isInitializing] *)
  deepgramListening : bool;            (* [deepgram.isListening] *)
  isSessionActive : bool
}.

(** The status the page shows; [s] is the state of the hook. *)
Definition derivedStatus (c : Surroundings) (s : Session) : UiStatus :=
  if truthyOpt (localError c) || truthyOpt (avatarError c)
     || truthyOpt (copilotError c) || truthyOpt (deepgramError c)
     || truthyOpt (error s)
  then UiStatus.error
  else if match sessionStatus c with
          | SessionStatus.requesting_token | SessionStatus.starting => true
          | _ => false
          end
          || copilotInitializing c || msalInitializing c
  then UiStatus.connecting
  else
    match status s with
    | UiStatus.thinking => UiStatus.thinking
    | UiStatus.speaking => UiStatus.speaking
    | _ =>
        if deepgramListening c then UiStatus.listening
        else if isSessionActive c then UiStatus.idle
        else UiStatus.idle
    end.

(** [a ?? b] *)
Definition nullish {A} (a b : option A) : option A :=
  match a with
  | Some x => Some x
  | None => b
  end.

(** The error line of the page; it is rendered when [errorText] is
    truthy. *)
Definition errorText (c : Surroundings) (s : Session) : option jsstring :=
  nullish (localError c)
    (nullish (msalError c)
       (nullish (avatarError c)
          (nullish (copilotError c)
             (nullish (deepgramError c) (error s))))).

(** No hook but the conversation loop reports an error, and nothing is
    being set up. *)
Definition quiet (c : Surroundings) : Prop :=
  truthyOpt (localError c) = false /\
  truthyOpt (avatarError c) = false /\
  truthyOpt (copilotError c) = false /\
  truthyOpt (deepgramError c) = false /\
  sessionStatus c <> SessionStatus.requesting_token /\
  sessionStatus c <> SessionStatus.starting /\
  copilotInitializing c = false /\
  msalInitializing c = false.

(** What the page shows when nothing is wrong and no turn is under
    way. *)
Definition atRest (c : Surroundings) : UiStatus :=
  if deepgramListening c then UiStatus.listening else UiStatus.idle.

Definition runningSession (listening : bool) : Surroundings :=
  {| localError := None; msalError := None; avatarError := None;
     copilotError := None; deepgramError := None;
     sessionStatus := SessionStatus.ready;
     copilotInitializing := false; msalInitializing := false;
     deepgramListening := listening; isSessionActive := true |}.

Section Page.

Variable NEXT_PUBLIC_FILLER_TEXT_TEMPLATE : option jsstring.
Variable w : World.

(** [submitManualText]; [manualInput] and [isListening] are the values
    of the render the callback belongs to, the result is the new value
    of [manualInput]. *)
Definition submitManualText (manualInput : jsstring) (isListening : bool)
  : Async jsstring :=
  let text := trim manualInput in
  if negb (truthy text) then ret manualInput
  else
    tryCatch
      (runTurn NEXT_PUBLIC_FILLER_TEXT_TEMPLATE w text ;;
       if negb isListening then set (setStatus UiStatus.idle) else ret tt)
      (fun _ => ret tt) ;;
    ret [].

End Page.

(** * Properties *)

Unset Implicit Arguments.

(** ** Strings *)

Lemma trimStart_all_space (s : jsstring) :
  forallb isWhiteSpace s = true -> trimStart s = [].
Proof.
  induction s as [|c t IH]; simpl; [reflexivity|].
  intros H; apply andb_prop in H as [Hc Ht].
  rewrite Hc; auto.
Qed.

Lemma trim_all_space (s : jsstring) :
  forallb isWhiteSpace s = true -> trim s = [].
Proof.
  intros H; unfold trim, trimEnd.
  rewrite (trimStart_all_space s H); reflexivity.
Qed.

Lemma trimStart_head s :
  trimStart s = [] \/
  exists c t, trimStart s = c :: t /\ isWhiteSpace c = false.
Proof.
  induction s as [|c s IH]; [left; reflexivity|]; simpl.
  destruct (isWhiteSpace c) eqn:E; [exact IH|].
  right; exists c, s; auto.
Qed.

Lemma trimStart_idempotent s : trimStart (trimStart s) = trimStart s.
Proof.
  destruct (trimStart_head s) as [->|(c & t & -> & E)]; [reflexivity|].
  simpl; rewrite E; reflexivity.
Qed.

Lemma trimStart_snoc l c :
  isWhiteSpace c = false -> exists l', trimStart (l ++ [c]) = l' ++ [c].
Proof.
  intros E; induction l as [|d l IH]; simpl.
  - rewrite E; exists []; reflexivity.
  - destruct (isWhiteSpace d); [exact IH|].
    exists (d :: l); reflexivity.
Qed.

Lemma trimEnd_idempotent s : trimEnd (trimEnd s) = trimEnd s.
Proof.
  unfold trimEnd; rewrite rev_involutive, trimStart_idempotent; reflexivity.
Qed.

Lemma trim_idempotent s : trim (trim s) = trim s.
Proof.
  unfold trim.
  destruct (trimStart_head s) as [->|(c & t & -> & E)]; [reflexivity|].
  assert (H : trimStart (trimEnd (c :: t)) = trimEnd (c :: t)).
  { unfold trimEnd; simpl rev.
    destruct (trimStart_snoc (rev t) c E) as (l' & ->).
    rewrite rev_app_distr; simpl; rewrite E; reflexivity. }
  rewrite H; apply trimEnd_idempotent.
Qed.

(** ** Detached tasks *)

Lemma replay_app es1 es2 s :
  replay (es1 ++ es2) s = replay es2 (replay es1 s).
Proof. apply fold_left_app. Qed.

Lemma replay_passive es s : Forall passive es -> replay es s = s.
Proof.
  intros H; revert s; induction H as [|e es He _ IH]; intros s;
    [reflexivity|].
  simpl; destruct e; simpl in He; try contradiction; apply IH.
Qed.

Lemma update_length {A} i (x : A) l :
  List.length (update i x l) = List.length l.
Proof.
  revert i; induction l as [|a l IH]; intros [|i]; simpl; auto.
Qed.

Lemma nth_error_update {A} i j (x : A) l :
  nth_error (update i x l) j
  = if Nat.eqb i j
    then match nth_error l j with Some _ => Some x | None => None end
    else nth_error l j.
Proof.
  revert i j; induction l as [|a l IH]; intros [|i] [|j]; simpl; auto;
    destruct (Nat.eqb _ _); reflexivity.
Qed.

Lemma Forall_update {A} (P : A -> Prop) i x l :
  Forall P l -> P x -> Forall P (update i x l).
Proof.
  intros H Hx; revert i; induction H as [|a l Ha Hl IH]; intros [|i];
    simpl; constructor; auto.
Qed.

Lemma update_last {A} (l : list A) x y :
  update (List.length l) y (l ++ [x]) = l ++ [y].
Proof. induction l as [|a l IH]; simpl; [reflexivity|rewrite IH; auto]. Qed.

Lemma nth_error_last {A} (l : list A) x :
  nth_error (l ++ [x]) (List.length l) = Some x.
Proof. induction l as [|a l IH]; simpl; auto. Qed.

Lemma moves_app p es1 p1 es2 p2 :
  moves p es1 p1 -> moves p1 es2 p2 -> moves p (es1 ++ es2) p2.
Proof.
  induction 1 as [|p i t e rest es p' Hn Ht _ IH]; intros H2; simpl; auto.
  eapply moves_step; eauto.
Qed.

Lemma moves_length p es p' :
  moves p es p' -> List.length p' = List.length p.
Proof.
  induction 1 as [|p i t e rest es p' _ _ _ IH]; [reflexivity|].
  rewrite IH; apply update_length.
Qed.

(** The steps taken and the steps left satisfy what the steps to take
    satisfied. *)
Lemma moves_allTodo (P : Event -> Prop) p es p' :
  moves p es p' -> allTodo P p -> Forall P es /\ allTodo P p'.
Proof.
  induction 1 as [|p i t e rest es p' Hn Ht _ IH]; intros Hp; [auto|].
  assert (Ht' : Forall P (e :: rest)).
  { rewrite <- Ht; unfold allTodo in Hp; rewrite Forall_forall in Hp.
    apply Hp; eapply nth_error_In; eauto. }
  inversion Ht' as [|? ? He Hrest]; subst.
  destruct IH as [IH1 IH2]; [apply Forall_update; auto|].
  split; auto.
Qed.

(** A task keeps its place and its outcome; what it has done is among
    the steps taken. *)
Lemma moves_nth p es p' i t :
  moves p es p' -> nth_error p i = Some t ->
  exists t' done,
    nth_error p' i = Some t' /\ settles t' = settles t /\
    todo t = done ++ todo t' /\ incl done es.
Proof.
  intros H; revert t; induction H as [|p j u e rest es p' Hn Hu _ IH];
    intros t Ht.
  - exists t, []; repeat split; auto. intros x [].
  - destruct (Nat.eqb_spec j i) as [->|Hji].
    + rewrite Ht in Hn; injection Hn as <-.
      destruct (IH {| todo := rest; settles := settles t |})
        as (t' & done & H1 & H2 & H3 & H4).
      { rewrite nth_error_update, Nat.eqb_refl, Ht; reflexivity. }
      exists t', (e :: done); repeat split; auto.
      * rewrite Hu; simpl in H3; rewrite H3; reflexivity.
      * intros x [<-|Hx]; [left; reflexivity|right; apply H4; exact Hx].
    + destruct (IH t) as (t' & done & H1 & H2 & H3 & H4).
      { rewrite nth_error_update.
        destruct (Nat.eqb_spec j i); [contradiction|exact Ht]. }
      exists t', done; repeat split; auto.
      intros x Hx; right; apply H4; exact Hx.
Qed.

Lemma fillersFrom_nth k tasks i t :
  fillersFrom k tasks -> nth_error tasks i = Some t ->
  Forall (fromTask (k + i)) (todo t).
Proof.
  revert k i; induction tasks as [|a tasks IH]; intros k [|i] H Ht;
    simpl in *; try discriminate.
  - injection Ht as <-; rewrite Nat.add_0_r; tauto.
  - rewrite <- Nat.add_succ_comm; apply IH; tauto.
Qed.

Lemma fillersFrom_update k tasks i t :
  fillersFrom k tasks -> Forall (fromTask (k + i)) (todo t) ->
  fillersFrom k (update i t tasks).
Proof.
  revert k i; induction tasks as [|a tasks IH]; intros k [|i] H Ht;
    simpl in *; auto.
  - rewrite Nat.add_0_r in Ht; tauto.
  - split; [tauto|]. apply IH; [tauto|].
    rewrite Nat.add_succ_comm; exact Ht.
Qed.

Lemma fillersFrom_app k tasks t :
  fillersFrom k tasks ->
  Forall (fromTask (k + List.length tasks)) (todo t) ->
  fillersFrom k (tasks ++ [t]).
Proof.
  revert k; induction tasks as [|a tasks IH]; intros k H Ht; simpl in *.
  - rewrite Nat.add_0_r in Ht; auto.
  - split; [tauto|]. apply IH; [tauto|].
    rewrite Nat.add_succ_comm; exact Ht.
Qed.

Lemma fromTask_fromFiller p e : fromTask p e -> fromFiller e.
Proof. destruct e as [[] ?|?|?|?]; simpl; auto. Qed.

Lemma fromFiller_passive e : fromFiller e -> passive e.
Proof. destruct e as [[] ?|?|?|?]; simpl; auto. Qed.

Lemma fillersFrom_allTodo k tasks :
  fillersFrom k tasks -> allTodo fromFiller tasks.
Proof.
  revert k; induction tasks as [|a tasks IH]; intros k H; simpl in *;
    constructor.
  - eapply Forall_impl; [apply fromTask_fromFiller|apply H].
  - apply (IH (S k)); tauto.
Qed.

(** Filler tasks stay filler tasks when they take steps. *)
Lemma moves_fillersFrom k p es p' :
  moves p es p' -> fillersFrom k p -> fillersFrom k p'.
Proof.
  induction 1 as [|p i t e rest es p' Hn Ht _ IH]; intros Hp; [auto|].
  apply IH, fillersFrom_update; [exact Hp|]; simpl.
  pose proof (fillersFrom_nth k p i t Hp Hn) as H.
  rewrite Ht in H; inversion H; auto.
Qed.

Lemma allTodo_impl (P Q : Event -> Prop) p :
  (forall e, P e -> Q e) -> allTodo P p -> allTodo Q p.
Proof.
  intros H Hp; eapply Forall_impl; [|exact Hp].
  intros t Ht; eapply Forall_impl; eauto.
Qed.

(** ** Primitive steps *)

Lemma step_moves p m :
  exists es p',
    moves (pending m) es p' /\
    step p m = {| session := replay es (session m); trace := trace m ++ es;
                  pending := p'; sched := sched m |}.
Proof.
  unfold step; destruct (nth_error (pending m) p) as [t|] eqn:Hn.
  - destruct (todo t) as [|e rest] eqn:Ht.
    + exists [], (pending m); split; [constructor|].
      rewrite app_nil_r; destruct m; reflexivity.
    + exists [e], (update p {| todo := rest; settles := settles t |}
                    (pending m)); split; [|reflexivity].
      eapply moves_step; eauto; constructor.
  - exists [], (pending m); split; [constructor|].
    rewrite app_nil_r; destruct m; reflexivity.
Qed.

Lemma advance_moves picks m :
  exists es p',
    moves (pending m) es p' /\
    advance picks m
    = {| session := replay es (session m); trace := trace m ++ es;
         pending := p'; sched := sched m |}.
Proof.
  revert m; induction picks as [|p picks IH]; intros m.
  - exists [], (pending m); split; [constructor|].
    simpl; rewrite app_nil_r; destruct m; reflexivity.
  - destruct (step_moves p m) as (es1 & p1 & H1 & E1).
    destruct (IH (step p m)) as (es2 & p2 & H2 & E2).
    exists (es1 ++ es2), p2; split.
    + eapply moves_app; eauto. rewrite E1 in H2; exact H2.
    + change (advance (p :: picks) m) with (advance picks (step p m)).
      rewrite E2, E1; simpl.
      rewrite replay_app, app_assoc; reflexivity.
Qed.

(** A suspension lets the detached tasks take some steps. *)
Lemma yield_moves (m : Machine) :
  exists es p' sc,
    moves (pending m) es p' /\
    yield m = {| session := replay es (session m); trace := trace m ++ es;
                 pending := p'; sched := sc |}.
Proof.
  unfold yield; destruct (sched m) as [|picks rest] eqn:E.
  - exists [], (pending m), []; split; [constructor|].
    rewrite app_nil_r; destruct m; simpl in *; subst; reflexivity.
  - destruct (advance_moves picks
                {| session := session m; trace := trace m;
                   pending := pending m; sched := rest |})
      as (es & p' & H & ->).
    exists es, p', rest; auto.
Qed.

Lemma taskEvents_cons p task s :
  exists e rest, taskEvents p task s = e :: rest.
Proof.
  unfold taskEvents; destruct (trace (snd (task (solo s)))) as [|e l];
    simpl; eauto.
Qed.

Lemma spawn_spec (task : Async unit) (m : Machine) :
  exists e rest,
    taskEvents (List.length (pending m)) task (session m) = e :: rest /\
    spawn task m =
      (Resolved (List.length (pending m)),
       {| session := perform e (session m); trace := trace m ++ [e];
          pending := pending m
                     ++ [{| todo := rest;
                            settles := fst (task (solo (session m))) |}];
          sched := sched m |}).
Proof.
  destruct (taskEvents_cons (List.length (pending m)) task (session m))
    as (e & rest & E).
  exists e, rest; split; [exact E|].
  unfold spawn, step; cbn [pending session trace sched].
  rewrite nth_error_last; cbn [todo settles]; rewrite E, update_last.
  reflexivity.
Qed.

Lemma join_spec p (m : Machine) :
  exists es p1 sc,
    moves (pending m) es p1 /\
    join p m =
      (settlement p p1,
       {| session := replay (remaining p p1) (replay es (session m));
          trace := (trace m ++ es) ++ remaining p p1;
          pending := finished p p1; sched := sc |}).
Proof.
  destruct (yield_moves m) as (es & p1 & sc & H & E).
  exists es, p1, sc; split; [exact H|].
  unfold join; rewrite E; reflexivity.
Qed.

Lemma remaining_allTodo (P : Event -> Prop) p tasks :
  allTodo P tasks -> Forall P (remaining p tasks).
Proof.
  intros H; unfold remaining.
  destruct (nth_error tasks p) as [t|] eqn:E; [|constructor].
  unfold allTodo in H; rewrite Forall_forall in H.
  apply H; eapply nth_error_In; eauto.
Qed.

Lemma finished_allTodo (P : Event -> Prop) p tasks :
  allTodo P tasks -> allTodo P (finished p tasks).
Proof.
  intros H; unfold finished.
  destruct (nth_error tasks p) as [t|]; [|exact H].
  apply Forall_update; [exact H|constructor].
Qed.

Lemma finished_length p tasks :
  List.length (finished p tasks) = List.length tasks.
Proof.
  unfold finished; destruct (nth_error tasks p); [apply update_length|auto].
Qed.

(** ** The guard of [runTurn] *)

(** The callback of a render that has seen the flag set does nothing,
    whatever the state and the input. *)
Lemma runTurnOf_seen_noop filler w userText (m : Machine) :
  runTurnOf filler w true userText m = (Resolved tt, m).
Proof. unfold runTurnOf; rewrite orb_true_r; reflexivity. Qed.

(** So does the callback of the latest render while the flag is set. *)
Lemma runTurn_latest_noop filler w userText (m : Machine) :
  isProcessing (session m) = true ->
  runTurn filler w userText m = (Resolved tt, m).
Proof.
  intros H; unfold runTurn, bind, getSession; rewrite H.
  apply runTurnOf_seen_noop.
Qed.

(** C10.  For an input whose trim is empty (by [trim_all_space] every
    empty or whitespace-only input is one), [runTurn] is a no-op even
    when no turn is in flight: the machine, and with it the re-entrancy
    flag, status, history, error, pending card and the record of adapter
    requests, is returned unchanged. *)
Theorem runTurn_blank_noop :
  forall filler w userText (m : Machine),
    trim userText = [] ->
    runTurn filler w userText m = (Resolved tt, m).
Proof.
  intros filler w userText m H.
  unfold runTurn, runTurnOf, bind, getSession.
  rewrite H; reflexivity.
Qed.

Lemma runTurn_blank_noop_witness :
  runTurn sampleFiller (plainWorld (replyOnly "Hi there."))
    [32; 9; 32; 160]%N (start [[0%nat]] initialSession)
  = (Resolved tt, start [[0%nat]] initialSession).
Proof. apply runTurn_blank_noop; reflexivity. Defined.

(** ** A program logic for [Async]

    [triple P c s Q]: started in a machine whose session is [s], whose
    recorded events all satisfy [P] and whose detached tasks have only
    steps to take that satisfy [P] and call no setter, the computation
    [c] ends in such a machine again, with an outcome and a session
    related by [Q].  The schedule and the detached tasks are
    arbitrary. *)

Section Logic.

Variable P : Event -> Prop.

Lemma good_moves m es p' sc :
  good P m -> moves (pending m) es p' ->
  good P {| session := replay es (session m); trace := trace m ++ es;
            pending := p'; sched := sc |} /\
  replay es (session m) = session m.
Proof.
  intros [Ht Hp] H.
  destruct (moves_allTodo _ _ _ _ H Hp) as [Hes Hp'].
  split; [split; simpl; [apply Forall_app; split; [exact Ht|]|exact Hp']|].
  - eapply Forall_impl; [|exact Hes]; simpl; tauto.
  - apply replay_passive; eapply Forall_impl; [|exact Hes]; simpl; tauto.
Qed.

Lemma good_yield m :
  good P m -> good P (yield m) /\ session (yield m) = session m.
Proof.
  intros Hm; destruct (yield_moves m) as (es & p' & sc & H & ->).
  apply good_moves; auto.
Qed.

Lemma triple_ret {A} (a : A) s (Q : Outcome A -> Session -> Prop) :
  Q (Resolved a) s -> triple P (ret a) s Q.
Proof. intros H m Hm <-; simpl; auto. Qed.

Lemma triple_throw {A} e s (Q : Outcome A -> Session -> Prop) :
  Q (Rejected e) s -> triple P (throw e) s Q.
Proof. intros H m Hm <-; simpl; auto. Qed.

Lemma triple_getSession s (Q : Outcome Session -> Session -> Prop) :
  Q (Resolved s) s -> triple P getSession s Q.
Proof. intros H m Hm <-; simpl; auto. Qed.

Lemma triple_bind {A B} (c : Async A) (k : A -> Async B) s
    (Q : Outcome B -> Session -> Prop) :
  triple P c s (fun o s' =>
                match o with
                | Resolved a => triple P (k a) s' Q
                | Rejected e => Q (Rejected e) s'
                end) ->
  triple P (bind c k) s Q.
Proof.
  intros H m Hm Hs; destruct (H m Hm Hs) as [Hg Hq].
  unfold bind; destruct (c m) as [[a|e] m']; simpl in *.
  - apply Hq; auto.
  - auto.
Qed.

Lemma triple_tryCatch {A} (c : Async A) (h : jsstring -> Async A) s
    (Q : Outcome A -> Session -> Prop) :
  triple P c s (fun o s' =>
                match o with
                | Resolved a => Q (Resolved a) s'
                | Rejected e => triple P (h e) s' Q
                end) ->
  triple P (tryCatch c h) s Q.
Proof.
  intros H m Hm Hs; destruct (H m Hm Hs) as [Hg Hq].
  unfold tryCatch; destruct (c m) as [[a|e] m']; simpl in *.
  - auto.
  - apply Hq; auto.
Qed.

Lemma triple_tryFinally {A} (c : Async A) (f : Async unit) s
    (Q : Outcome A -> Session -> Prop) :
  triple P c s (fun o s' =>
                triple P f s' (fun o' s'' =>
                               match o' with
                               | Resolved _ => Q o s''
                               | Rejected e => Q (Rejected e) s''
                               end)) ->
  triple P (tryFinally c f) s Q.
Proof.
  intros H m Hm Hs; destruct (H m Hm Hs) as [Hg Hq].
  unfold tryFinally; destruct (c m) as [o m']; simpl in *.
  destruct (Hq m' Hg eq_refl) as [Hg' Hq'].
  destruct (f m') as [[u|e] m'']; simpl in *; auto.
Qed.

Lemma triple_set u s (Q : Outcome unit -> Session -> Prop) :
  P (Set_ u) -> Q (Resolved tt) (apply u s) -> triple P (set u) s Q.
Proof.
  intros Hu H m [Ht Hp] <-; simpl; split; [split|]; auto.
  apply Forall_app; auto.
Qed.

Lemma triple_await {A} (o : Outcome A) s (Q : Outcome A -> Session -> Prop) :
  Q o s -> triple P (await o) s Q.
Proof.
  intros H m Hm <-; unfold await; simpl.
  destruct (good_yield m Hm) as [Hg ->]; auto.
Qed.

Lemma triple_request {A} b r (o : Outcome A) s
    (Q : Outcome A -> Session -> Prop) :
  P (Req b r) -> Q o s -> triple P (request b r o) s Q.
Proof.
  intros Hr H m [Ht Hp] <-; unfold request, bind, emit, await; simpl.
  match goal with
  | |- context [yield ?m'] =>
      destruct (good_yield m') as [Hg ->]; [|auto]
  end.
  split; simpl; auto. apply Forall_app; auto.
Qed.

(** A detached task is started: its events have to satisfy [P], and
    none of them may be a call of a setter. *)
Lemma triple_spawn (task : Async unit) s
    (Q : Outcome nat -> Session -> Prop) :
  (forall p, Forall (fun e => P e /\ passive e) (taskEvents p task s)) ->
  (forall p, Q (Resolved p) s) ->
  triple P (spawn task) s Q.
Proof.
  intros Hev H m [Ht Hp] <-.
  destruct (spawn_spec task m) as (e & rest & E & ->); simpl.
  specialize (Hev (List.length (pending m))).
  rewrite E in Hev; inversion Hev as [|? ? [He He'] Hrest]; subst.
  destruct e; simpl in He'; try contradiction; simpl.
  all: split; [split|]; simpl; auto.
  all: try (apply Forall_app; auto).
  all: apply Forall_app; split; [exact Hp|repeat constructor; exact Hrest].
Qed.

(** The wait for a detached task: whatever the task's outcome, the
    wait with its [catch] resolves. *)
Lemma triple_awaitFiller p s (Q : Outcome unit -> Session -> Prop) :
  P (Joined p) -> Q (Resolved tt) s -> triple P (awaitFiller p) s Q.
Proof.
  intros Hj H m Hm <-.
  destruct (join_spec p m) as (es & p1 & sc & Hmv & E).
  destruct (good_moves m es p1 sc Hm Hmv) as [[Ht Hp] Hs].
  cbn [trace pending] in Ht, Hp.
  assert (Hr : Forall (fun e => P e /\ passive e) (remaining p p1))
    by (apply remaining_allTodo; exact Hp).
  assert (Hs' : replay (remaining p p1) (replay es (session m)) = session m).
  { rewrite replay_passive; [exact Hs|].
    eapply Forall_impl; [|exact Hr]; simpl; tauto. }
  unfold awaitFiller, bind, tryCatch, emit, ret; rewrite E.
  destruct (settlement p p1) as [[]|e];
    cbn [fst snd session trace pending sched]; rewrite Hs'.
  all: split; [split; cbn [trace pending]|exact H].
  all: try (apply finished_allTodo; exact Hp).
  all: apply Forall_app; split; [apply Forall_app; split; [exact Ht|]|auto].
  all: eapply Forall_impl; [|exact Hr]; simpl; tauto.
Qed.

Lemma triple_run {A} (c : Async A) s Q schedule :
  triple P c s Q ->
  Forall P (trace (snd (c (start schedule s)))) /\
  Q (fst (c (start schedule s))) (session (snd (c (start schedule s)))).
Proof.
  intros H; destruct (H (start schedule s)) as [[Ht _] Hq];
    [split; constructor | reflexivity | auto].
Qed.

Lemma triple_start {A} (c : Async A) s Q schedule :
  triple P c s Q ->
  good P (snd (c (start schedule s))) /\
  Q (fst (c (start schedule s))) (session (snd (c (start schedule s)))).
Proof.
  intros H; apply H; [split; constructor | reflexivity].
Qed.

Lemma good_passive m : good P m -> allTodo passive (pending m).
Proof.
  intros [_ H]; eapply allTodo_impl; [|exact H]; simpl; tauto.
Qed.

Lemma triple_conseq {A} (c : Async A) s
    (Q1 Q2 : Outcome A -> Session -> Prop) :
  triple P c s Q1 -> (forall o s', Q1 o s' -> Q2 o s') -> triple P c s Q2.
Proof.
  intros H HQ m Hm Hs; destruct (H m Hm Hs) as [Hg Hq]; split; auto.
Qed.

End Logic.

(** Without a constraint on the events the logic speaks of every
    machine whose detached tasks call no setter. *)
Lemma triple_any {A} (c : Async A) s Q (m : Machine) :
  triple (fun _ => True) c s Q ->
  allTodo passive (pending m) -> session m = s ->
  Q (fst (c m)) (session (snd (c m))).
Proof.
  intros H Hp Hs; apply H; [|exact Hs].
  split; [apply Forall_forall; intros; exact I|].
  eapply allTodo_impl; [|exact Hp]; simpl; auto.
Qed.


(** One step of symbolic execution. *)
Ltac tstep :=
  lazymatch goal with
  | |- triple _ (bind _ _) _ _ => apply triple_bind
  | |- triple _ (tryCatch _ _) _ _ => apply triple_tryCatch
  | |- triple _ (tryFinally _ _) _ _ => apply triple_tryFinally
  | |- triple _ (ret _) _ _ => apply triple_ret
  | |- triple _ (throw _) _ _ => apply triple_throw
  | |- triple _ getSession _ _ => apply triple_getSession
  | |- triple _ (set _) _ _ => apply triple_set; [try exact I|]
  | |- triple _ (await _) _ _ => apply triple_await
  | |- triple _ (request _ _ _) _ _ => apply triple_request; [try exact I|]
  | |- triple _ (awaitFiller _) _ _ =>
      apply triple_awaitFiller; [try exact I|]
  end; cbv beta iota.

Ltac tsteps := repeat tstep.

(** ** The filler task *)

(** Whatever the template, the input and the adapters' answers, the
    filler task calls no state setter and issues requests only in its
    own name; the settlement of its promise is always its last event. *)
Lemma speakFiller_events p filler w userText s :
  Forall (fromTask p) (taskEvents p (speakFiller filler w userText) s).
Proof.
  unfold taskEvents; apply Forall_app; split;
    [|repeat constructor; reflexivity].
  assert (T : triple (fromTask p) (speakFiller filler w userText) s
                (fun _ _ => True)).
  { unfold speakFiller.
    destruct (truthy (FILLER_TEXT_TEMPLATE filler)); simpl; [|tsteps; exact I].
    unfold synthesizeSpeech; tsteps.
    destruct (fetch_tts w Filler _) as [resp|e]; tsteps; [|exact I].
    destruct (ok resp); simpl; tsteps.
    - destruct (body_json resp) as [[audio|]|e]; tsteps; try exact I.
      destruct (truthy audio); tsteps; try exact I.
      destruct (speakAudio _ _); tsteps; exact I.
    - destruct (body_text resp); tsteps; exact I. }
  destruct (T (solo s)) as [[Ht _] _];
    [split; constructor | reflexivity | exact Ht].
Qed.

Lemma speakFiller_events_weaken (P : Event -> Prop) p filler w userText s :
  (forall e, fromFiller e -> P e) ->
  Forall (fun e => P e /\ passive e)
    (taskEvents p (speakFiller filler w userText) s).
Proof.
  intros H; eapply Forall_impl; [|apply speakFiller_events].
  intros e He; apply fromTask_fromFiller in He; split;
    [apply H; exact He | apply fromFiller_passive; exact He].
Qed.

Lemma speakFiller_settles p filler w userText s :
  In (FillerSettled p) (taskEvents p (speakFiller filler w userText) s).
Proof. unfold taskEvents; apply in_or_app; right; left; reflexivity. Qed.

Ltac tspawn :=
  lazymatch goal with
  | |- triple _ (spawn _) _ _ =>
      apply triple_spawn;
      [ intros ?;
        try (apply speakFiller_events_weaken;
             intros [[] ?|?|?|?]; simpl; intros; solve [tauto | exact I])
      | intros ?; cbv beta iota ]
  end.

Ltac trun := repeat first [ tstep | tspawn ].

(** Symbolic execution along the path that the equations rewritten by
    [rw] select. *)
Ltac trun_with rw :=
  repeat (progress (trun; try rw; cbv beta iota; cbn [negb])).

Ltac tcase :=
  lazymatch goal with
  | |- triple _ (match ?x with _ => _ end) _ _ => destruct x eqn:?
  | |- triple _ (if ?x then _ else _) _ _ => destruct x eqn:?
  | |- match ?x with Resolved _ => _ | Rejected _ => _ end => destruct x eqn:?
  end; cbv beta iota.

(** Symbolic execution along every path: what the hypotheses rewritten
    by [rw] decide is followed, anything else is split. *)
Ltac trun_all rw :=
  repeat (progress (trun; try rw; cbv beta iota; cbn [negb orb andb];
                    try tcase)).

(** ** A successful plain turn *)

(** C2.  For every input whose trim is non-empty (and no turn in
    flight): if the backend resolves with a reply whose trimmed text is
    non-empty and that carries no sign-in card, speech synthesis of the
    reply succeeds (the TTS route answers [ok] with a non-empty [audio])
    and the playback adapter accepts what the callback asks of it (the
    interrupt, when that adapter is configured, and the reply's audio),
    then [runTurn] resolves, the history is the old one extended by
    exactly two messages, a user message with the trimmed input followed
    by an assistant message with the trimmed reply, and the final status
    is [listening].  This holds for every filler template, every
    behaviour of the filler's own requests and every schedule. *)
Theorem runTurn_plain_reply :
  forall filler w userText schedule (s : Session) r resp audio,
    truthy (trim userText) = true ->
    isProcessing s = false ->
    sendCopilotMessage (optionsRef w Main) (trim userText) = Resolved r ->
    truthy (trim (Resp.botReply r)) = true ->
    Resp.signinCard r = None ->
    interruptAccepted (optionsRef w Main) ->
    fetch_tts w Main
      (orElse (option_map trim (Resp.speechText r)) (trim (Resp.botReply r)))
      = Resolved resp ->
    ok resp = true ->
    body_json resp = Resolved (Some audio) ->
    truthy audio = true ->
    speakAudio (optionsRef w Main) audio = Resolved tt ->
    let out := runTurn filler w userText (start schedule s) in
    fst out = Resolved tt /\
    (exists mu ma,
        history (session (snd out)) = history s ++ [mu; ma]
        /\ Msg.role mu = Role.user /\ Msg.text mu = trim userText
        /\ Msg.role ma = Role.assistant
        /\ Msg.text ma = trim (Resp.botReply r)) /\
    status (session (snd out)) = UiStatus.listening /\
    isProcessing (session (snd out)) = false.
Proof.
  intros filler w userText schedule s r resp audio Hclean Hproc Hsend Hreply
    Hcard Hint Hfetch Hok Hjson Haudio Hspeak out.
  apply (@triple_run (fun _ => True) unit (runTurn filler w userText) s
           (fun o s' =>
              o = Resolved tt /\
              (exists mu ma,
                  history s' = history s ++ [mu; ma]
                  /\ Msg.role mu = Role.user /\ Msg.text mu = trim userText
                  /\ Msg.role ma = Role.assistant
                  /\ Msg.text ma = trim (Resp.botReply r)) /\
              status s' = UiStatus.listening /\ isProcessing s' = false)).
  unfold runTurn, runTurnOf; trun; rewrite Hclean, Hproc; simpl.
  unfold pushMessage, runTurn_try; trun.
  rewrite Hsend; trun.
  unfold interruptAccepted in Hint.
  destruct (interruptSpeech (optionsRef w Main)) as [[[]|e]|];
    [ | contradiction | ];
    unfold processBotReply, pushMessage, synthesizeSpeech;
    trun_with ltac:(rewrite ?Hcard, ?Hreply, ?Hfetch, ?Hok, ?Hjson,
                      ?Haudio, ?Hspeak);
    simpl; rewrite <- app_assoc; simpl; repeat split; eauto 10.
Qed.

Lemma runTurn_plain_reply_witness :
  let out := runTurn sampleFiller (plainWorld (replyOnly " Hi there. "))
               (js "  hello ") (start [[0%nat]; []] initialSession) in
  fst out = Resolved tt /\
  (exists mu ma,
      history (session (snd out)) = history initialSession ++ [mu; ma]
      /\ Msg.role mu = Role.user /\ Msg.text mu = trim (js "  hello ")
      /\ Msg.role ma = Role.assistant
      /\ Msg.text ma = trim (Resp.botReply (replyOnly " Hi there. "))) /\
  status (session (snd out)) = UiStatus.listening /\
  isProcessing (session (snd out)) = false.
Proof.
  apply (@runTurn_plain_reply sampleFiller (plainWorld (replyOnly " Hi there. "))
           (js "  hello ") [[0%nat]; []] initialSession
           (replyOnly " Hi there. ") ttsOk (js "UklGRiQ="));
    first [reflexivity | exact I].
Defined.

(** ** The silent token exchange *)

(** C4.  When the backend's reply carries a sign-in card with a token
    exchange URI (and the resource id and connection name the exchange
    is called with), the silent acquisition resolves with a credential
    (a non-empty token) and the exchange resolves with a reply whose
    trimmed text is non-empty, then no setter call of the turn makes a
    card pending, the pending-card field is null at the end, and the
    history is the old one extended by the user message and an
    assistant message carrying the text of the exchanged reply,
    whatever becomes of the speech synthesis and playback of that
    reply. *)
Theorem runTurn_silent_exchange :
  forall filler w userText schedule (s : Session) r card uri rid cname
         acquire exchange token r',
    truthy (trim userText) = true ->
    isProcessing s = false ->
    sendCopilotMessage (optionsRef w Main) (trim userText) = Resolved r ->
    interruptAccepted (optionsRef w Main) ->
    Resp.signinCard r = Some card ->
    Card.tokenExchangeResourceUri card = Some uri -> truthy uri = true ->
    Card.tokenExchangeResourceId card = Some rid -> truthy rid = true ->
    Card.connectionName card = Some cname -> truthy cname = true ->
    acquireConnectionToken (optionsRef w Main) = Some acquire ->
    exchangeConnectionToken (optionsRef w Main) = Some exchange ->
    acquire uri = Resolved (Some token) -> truthy token = true ->
    exchange {| connectionToken := token; xConnectionName := cname;
                xTokenExchangeResourceId := rid |} = Resolved r' ->
    truthy (trim (Resp.botReply r')) = true ->
    let out := runTurn filler w userText (start schedule s) in
    Forall keepsCardHidden (trace (snd out)) /\
    signinCard (session (snd out)) = None /\
    exists mu ma,
      history (session (snd out)) = history s ++ [mu; ma]
      /\ Msg.role mu = Role.user /\ Msg.text mu = trim userText
      /\ Msg.role ma = Role.assistant
      /\ Msg.text ma = trim (Resp.botReply r').
Proof.
  intros filler w userText schedule s r card uri rid cname acquire exchange
    token r' Hclean Hproc Hsend Hint Hcard Huri Huri' Hrid Hrid' Hname Hname'
    Hacq Hexch Htok Htok' Hx Hreply out.
  apply (@triple_run keepsCardHidden unit (runTurn filler w userText) s
           (fun o s' =>
              signinCard s' = None /\
              exists mu ma,
                history s' = history s ++ [mu; ma]
                /\ Msg.role mu = Role.user /\ Msg.text mu = trim userText
                /\ Msg.role ma = Role.assistant
                /\ Msg.text ma = trim (Resp.botReply r'))).
  unfold runTurn, runTurnOf; trun; rewrite Hclean, Hproc; simpl.
  unfold pushMessage, runTurn_try; trun.
  rewrite Hsend; trun.
  unfold interruptAccepted in Hint.
  destruct (interruptSpeech (optionsRef w Main)) as [[[]|e]|];
    [ | contradiction | ];
    unfold hasExchangeUri, trySilentExchange, processBotReply, pushMessage,
      synthesizeSpeech;
    trun_all ltac:(rewrite ?Hcard, ?Huri, ?Hrid, ?Hname, ?Hacq, ?Hexch;
                   cbn [truthyOpt];
                   rewrite ?Huri', ?Hrid', ?Hname', ?Htok;
                   cbn [truthyOpt]; rewrite ?Htok', ?Hx, ?Hreply);
    simpl; rewrite <- ?app_assoc; simpl; split; eauto 10.
Qed.

Lemma runTurn_silent_exchange_witness :
  let out := runTurn sampleFiller
               (silentWorld oauthCard (replyOnly "Here are your files."))
               (js "list my files") (start [[]; [0; 0]%nat] initialSession) in
  Forall keepsCardHidden (trace (snd out)) /\
  signinCard (session (snd out)) = None /\
  exists mu ma,
    history (session (snd out)) = history initialSession ++ [mu; ma]
    /\ Msg.role mu = Role.user /\ Msg.text mu = trim (js "list my files")
    /\ Msg.role ma = Role.assistant
    /\ Msg.text ma = trim (Resp.botReply (replyOnly "Here are your files.")).
Proof.
  apply (@runTurn_silent_exchange sampleFiller
           (silentWorld oauthCard (replyOnly "Here are your files."))
           (js "list my files") [[]; [0; 0]%nat] initialSession
           (cardOnly oauthCard) oauthCard
           (js "api://sharepoint/.default") (js "res-42") (js "SharePoint")
           (fun _ => Resolved (Some (js "eyJ0eXAi")))
           (fun _ => Resolved (replyOnly "Here are your files."))
           (js "eyJ0eXAi") (replyOnly "Here are your files."));
    first [reflexivity | exact I].
Defined.


(** ** Completing the consent flow *)










(** ** The history *)

Lemma grows_refl h : grows h h.
Proof. exists []; rewrite app_nil_r; reflexivity. Qed.

Lemma grows_snoc h h' m : grows h h' -> grows h (h' ++ [m]).
Proof. intros [a ->]; exists (a ++ [m]); rewrite app_assoc; reflexivity. Qed.

Ltac grown := simpl; repeat apply grows_snoc; apply grows_refl.

Lemma runTurn_grows filler w userText s :
  triple keepsHistory (runTurn filler w userText) s
    (fun _ s' => grows (history s) (history s')).
Proof.
  unfold runTurn, runTurnOf, runTurn_try, hasExchangeUri, trySilentExchange,
    processBotReply, pushMessage, synthesizeSpeech.
  trun_all idtac; grown.
Qed.

Lemma processBotReply_grows w displayText speechText s :
  triple keepsHistory (processBotReply w displayText speechText) s
    (fun _ s' => grows (history s) (history s')).
Proof.
  unfold processBotReply, pushMessage, synthesizeSpeech.
  trun_all idtac; grown.
Qed.

Lemma completeTokenExchange_grows w connectionToken s :
  triple keepsHistory (completeTokenExchange w connectionToken) s
    (fun _ s' => grows (history s) (history s')).
Proof.
  unfold completeTokenExchange, processBotReply, pushMessage, synthesizeSpeech.
  trun_all idtac; grown.
Qed.

Lemma submitAllowAction_grows w s :
  triple keepsHistory (submitAllowAction w) s
    (fun _ s' => grows (history s) (history s')).
Proof.
  unfold submitAllowAction, processBotReply, pushMessage, synthesizeSpeech.
  trun_all idtac; grown.
Qed.

(** C9.  The history is append-only under every operation but
    [clearHistory].  Whatever the adapters answer and however the run is
    scheduled, [runTurn], [processBotReply], [completeTokenExchange] and
    [submitAllowAction] never call the history setter to reset it, and
    they end with the history they started from followed by the messages
    they appended (possibly none); [dismissSigninCard] leaves the history
    as it is.  [clearHistory] empties the history and clears the pending
    card, and leaves the status alone. *)
Theorem history_append_only :
  forall filler w schedule (s : Session),
    (forall userText,
       let out := runTurn filler w userText (start schedule s) in
       Forall keepsHistory (trace (snd out)) /\
       grows (history s) (history (session (snd out)))) /\
    (forall displayText speechText,
       let out := processBotReply w displayText speechText
                    (start schedule s) in
       Forall keepsHistory (trace (snd out)) /\
       grows (history s) (history (session (snd out)))) /\
    (forall token,
       let out := completeTokenExchange w token
                    (start schedule s) in
       Forall keepsHistory (trace (snd out)) /\
       grows (history s) (history (session (snd out)))) /\
    (let out := submitAllowAction w (start schedule s) in
     Forall keepsHistory (trace (snd out)) /\
     grows (history s) (history (session (snd out)))) /\
    (let out := dismissSigninCard (start schedule s) in
     Forall keepsHistory (trace (snd out)) /\
     history (session (snd out)) = history s) /\
    (let out := clearHistory (start schedule s) in
     history (session (snd out)) = [] /\
     signinCard (session (snd out)) = None /\
     status (session (snd out)) = status s).
Proof.
  intros filler w schedule s.
  split; [intros userText out;
          exact (triple_run _ _ _ _ schedule
                   (runTurn_grows filler w userText s))|].
  split; [intros displayText speechText out;
          exact (triple_run _ _ _ _ schedule
                   (processBotReply_grows w displayText speechText s))|].
  split; [intros token out;
          exact (triple_run _ _ _ _ schedule
                   (completeTokenExchange_grows w token s))|].
  split; [intros out;
          exact (triple_run _ _ _ _ schedule (submitAllowAction_grows w s))|].
  split; [intros out; split; [simpl; repeat constructor | reflexivity]|].
  intros out; repeat split.
Qed.


(** ** Symbolic execution on the whole machine

    [wp c Q m]: running [c] from [m] ends with an outcome and a machine
    satisfying [Q].  The rules below unfold one construct each; at a
    suspension the steps the detached tasks take are left universally
    quantified. *)

Lemma wp_ret {A} (a : A) Q m : Q (Resolved a) m -> wp (ret a) Q m.
Proof. auto. Qed.

Lemma wp_throw {A} e (Q : Outcome A -> Machine -> Prop) m :
  Q (Rejected e) m -> wp (throw e) Q m.
Proof. auto. Qed.

Lemma wp_getSession Q m : Q (Resolved (session m)) m -> wp getSession Q m.
Proof. auto. Qed.

Lemma wp_bind {A B} (c : Async A) (k : A -> Async B) Q m :
  wp c (fun o m' =>
          match o with
          | Resolved a => wp (k a) Q m'
          | Rejected e => Q (Rejected e) m'
          end) m ->
  wp (bind c k) Q m.
Proof. unfold wp, bind; destruct (c m) as [[a|e] m']; auto. Qed.

Lemma wp_tryCatch {A} (c : Async A) (h : jsstring -> Async A) Q m :
  wp c (fun o m' =>
          match o with
          | Resolved a => Q (Resolved a) m'
          | Rejected e => wp (h e) Q m'
          end) m ->
  wp (tryCatch c h) Q m.
Proof. unfold wp, tryCatch; destruct (c m) as [[a|e] m']; auto. Qed.

Lemma wp_tryFinally {A} (c : Async A) (f : Async unit) Q m :
  wp c (fun o m' =>
          wp f (fun o' m'' =>
                  match o' with
                  | Resolved _ => Q o m''
                  | Rejected e => Q (Rejected e) m''
                  end) m') m ->
  wp (tryFinally c f) Q m.
Proof.
  unfold wp, tryFinally; destruct (c m) as [o m']; simpl.
  destruct (f m') as [[u|e] m'']; auto.
Qed.

Lemma wp_set u (Q : Outcome unit -> Machine -> Prop) m :
  Q (Resolved tt)
    {| session := apply u (session m); trace := trace m ++ [Set_ u];
       pending := pending m; sched := sched m |} ->
  wp (set u) Q m.
Proof. auto. Qed.

Lemma wp_await {A} (o : Outcome A) Q m :
  (forall es p1 sc,
     moves (pending m) es p1 ->
     Q o {| session := replay es (session m); trace := trace m ++ es;
            pending := p1; sched := sc |}) ->
  wp (await o) Q m.
Proof.
  intros H; unfold wp, await; simpl.
  destruct (yield_moves m) as (es & p1 & sc & Hm & ->); apply H; exact Hm.
Qed.

Lemma wp_request {A} b r (o : Outcome A) Q m :
  (forall es p1 sc,
     moves (pending m) es p1 ->
     Q o {| session := replay es (session m);
            trace := (trace m ++ [Req b r]) ++ es;
            pending := p1; sched := sc |}) ->
  wp (request b r o) Q m.
Proof.
  intros H; unfold wp, request, bind, emit, await; simpl.
  match goal with
  | |- context [yield ?m'] =>
      destruct (yield_moves m') as (es & p1 & sc & Hm & ->)
  end.
  apply H; exact Hm.
Qed.

Lemma wp_awaitFiller p (Q : Outcome unit -> Machine -> Prop) m :
  (forall es p1 sc,
     moves (pending m) es p1 ->
     Q (Resolved tt)
       {| session := replay (remaining p p1) (replay es (session m));
          trace := ((trace m ++ es) ++ remaining p p1) ++ [Joined p];
          pending := finished p p1; sched := sc |}) ->
  wp (awaitFiller p) Q m.
Proof.
  intros H; destruct (join_spec p m) as (es & p1 & sc & Hm & E).
  unfold wp, awaitFiller, bind, tryCatch, emit, ret; rewrite E.
  destruct (settlement p p1); simpl; apply H; exact Hm.
Qed.

Lemma wp_spawn (task : Async unit) (Q : Outcome nat -> Machine -> Prop) m :
  (forall e rest,
     taskEvents (List.length (pending m)) task (session m) = e :: rest ->
     Q (Resolved (List.length (pending m)))
       {| session := perform e (session m); trace := trace m ++ [e];
          pending := pending m
                     ++ [{| todo := rest;
                            settles := fst (task (solo (session m))) |}];
          sched := sched m |}) ->
  wp (spawn task) Q m.
Proof.
  intros H; destruct (spawn_spec task m) as (e & rest & E & Hs).
  unfold wp; rewrite Hs; apply H; exact E.
Qed.

Ltac wsimp := cbv beta iota; cbn [session trace pending sched List.length].

Ltac wstep :=
  lazymatch goal with
  | |- wp (bind _ _) _ _ => apply wp_bind; wsimp
  | |- wp (tryCatch _ _) _ _ => apply wp_tryCatch; wsimp
  | |- wp (tryFinally _ _) _ _ => apply wp_tryFinally; wsimp
  | |- wp (ret _) _ _ => apply wp_ret; wsimp
  | |- wp (throw _) _ _ => apply wp_throw; wsimp
  | |- wp getSession _ _ => apply wp_getSession; wsimp
  | |- wp (set _) _ _ => apply wp_set; wsimp
  | |- wp (request _ _ _) _ _ => apply wp_request; wsimp; intros ? ? ? ?
  | |- wp (await _) _ _ => apply wp_await; wsimp; intros ? ? ? ?
  | |- wp (spawn _) _ _ => apply wp_spawn; wsimp; intros ? ? ?
  | |- wp (awaitFiller _) _ _ =>
      apply wp_awaitFiller; wsimp; intros ? ? ? ?
  end.

(** Case analysis on whatever the next step of the program inspects. *)
Ltac wcase :=
  lazymatch goal with
  | |- wp (match ?x with _ => _ end) _ _ => destruct x eqn:?
  | |- wp (if ?x then _ else _) _ _ => destruct x eqn:?
  | |- match ?x with Resolved _ => _ | Rejected _ => _ end => destruct x eqn:?
  end; cbv beta iota.

Ltac wrun_with rw :=
  repeat (progress (repeat wstep; try rw; cbv beta iota;
                    cbn [negb orb andb truthyOpt])).

Ltac wrun_all rw :=
  repeat (progress (repeat wstep; try rw; cbv beta iota;
                    cbn [negb orb andb truthyOpt]; try wcase)).

(** What is known of the steps to take carries over to the steps
    taken and to the steps left. *)
Ltac wfacts :=
  repeat match goal with
         | Hm : moves ?p ?es ?p1, Hp : allTodo ?P ?p |- _ =>
             lazymatch goal with
             | _ : Forall P es |- _ => fail
             | _ =>
                 let H1 := fresh "Hes" in
                 let H2 := fresh "Hp" in
                 destruct (moves_allTodo P p es p1 Hm Hp) as [H1 H2]
             end
         | Hm : moves (finished ?q ?p) _ _, Hp : allTodo ?P ?p |- _ =>
             lazymatch goal with
             | _ : allTodo P (finished q p) |- _ => fail
             | _ => pose proof (finished_allTodo P q p Hp)
             end
         end.

(** Goals [Forall P t] for a trace [t] put together by the rules. *)
Ltac forall_events :=
  repeat first [ apply Forall_nil
               | assumption
               | apply Forall_cons; [first [assumption | exact I]|]
               | apply Forall_app; split
               | apply remaining_allTodo; assumption ].

Lemma allTodo_spawned (P : Event -> Prop) tasks rest o :
  allTodo P tasks -> Forall P rest ->
  allTodo P (tasks ++ [{| todo := rest; settles := o |}]).
Proof.
  intros H Hr; apply Forall_app; split; [exact H|repeat constructor; auto].
Qed.

(** ** The silent acquisition comes first *)

Lemma fromFiller_keepsCardHidden e : fromFiller e -> keepsCardHidden e.
Proof. destruct e as [[] ?|?|?|?]; simpl; tauto. Qed.

Lemma acquiresFirst_app uri t l :
  acquiresFirst uri t -> acquiresFirst uri (t ++ l).
Proof.
  intros (b & a & -> & H); exists b, (a ++ l); split; [|exact H].
  rewrite <- app_assoc; reflexivity.
Qed.

Lemma acquiresFirst_here uri t :
  Forall keepsCardHidden t ->
  acquiresFirst uri (t ++ [Req Main (acquire_token uri)]).
Proof. intros H; exists t, []; auto. Qed.

(** The events of a filler task satisfy whatever all events of fillers
    satisfy. *)
Lemma speakFiller_all (P : Event -> Prop) p filler w userText s :
  (forall e, fromFiller e -> P e) ->
  Forall P (taskEvents p (speakFiller filler w userText) s).
Proof.
  intros H; eapply Forall_impl; [|apply speakFiller_events].
  intros e He; apply H; eapply fromTask_fromFiller; exact He.
Qed.

(** C6, as stated, fails: the reply carries a card with a token
    exchange URI, but the card has no connection name; no acquisition is
    requested and the card becomes pending. *)
Lemma runTurn_nameless_card_not_acquired :
  let w := silentWorld namelessCard (replyOnly "Here are your files.") in
  let out := runTurn None w (js "list my files") (start [] initialSession) in
  sendCopilotMessage (optionsRef w Main) (trim (js "list my files"))
    = Resolved (cardOnly namelessCard) /\
  truthyOpt (Card.tokenExchangeResourceUri namelessCard) = true /\
  (forall b scope, ~ In (Req b (acquire_token scope)) (trace (snd out))) /\
  signinCard (session (snd out)) = Some namelessCard.
Proof.
  repeat split.
  intros b scope H; vm_compute in H.
  repeat (destruct H as [H|H]; [discriminate|]); exact H.
Qed.

(** C6, amended.  In a turn whose backend reply carries a sign-in card
    with a token exchange URI, a resource id and a connection name (all
    non-empty), with both the acquisition and the exchange adapter
    configured and the interrupt request, if any, accepted, the callback
    requests the silent acquisition with that URI, and no setter call
    before that request makes a card pending. *)
Theorem runTurn_acquires_before_pending :
  forall filler w userText schedule (s : Session) r card uri rid cname
         acquire exchange,
    truthy (trim userText) = true ->
    isProcessing s = false ->
    sendCopilotMessage (optionsRef w Main) (trim userText) = Resolved r ->
    interruptAccepted (optionsRef w Main) ->
    Resp.signinCard r = Some card ->
    Card.tokenExchangeResourceUri card = Some uri -> truthy uri = true ->
    Card.tokenExchangeResourceId card = Some rid -> truthy rid = true ->
    Card.connectionName card = Some cname -> truthy cname = true ->
    acquireConnectionToken (optionsRef w Main) = Some acquire ->
    exchangeConnectionToken (optionsRef w Main) = Some exchange ->
    acquiresFirst uri
      (trace (snd (runTurn filler w userText (start schedule s)))).
Proof.
  intros filler w userText schedule s r card uri rid cname acquire exchange
    Hclean Hproc Hsend Hint Hcard Huri Huri' Hrid Hrid' Hname Hname'
    Hacq Hexch.
  change (wp (runTurn filler w userText)
            (fun _ m' => acquiresFirst uri (trace m')) (start schedule s)).
  unfold runTurn, runTurnOf, start; repeat wstep.
  rewrite Hclean, Hproc; cbn [negb orb].
  unfold pushMessage, runTurn_try; repeat wstep.
  match goal with
  | E : taskEvents ?p (speakFiller ?f ?w0 ?t) ?s0 = _ |- _ =>
      pose proof (speakFiller_all keepsCardHidden p f w0 t s0
                    fromFiller_keepsCardHidden) as HF;
      rewrite E in HF
  end.
  inversion HF as [|? ? He Hrest]; subst.
  match goal with
  | Hm : moves ([] ++ [{| todo := rest; settles := ?o |}]) _ _ |- _ =>
      pose proof (allTodo_spawned keepsCardHidden [] rest o
                    (Forall_nil _) Hrest) as Hp0
  end.
  rewrite Hsend; cbv beta iota.
  unfold interruptAccepted in Hint.
  destruct (interruptSpeech (optionsRef w Main)) as [[[]|?]|];
    [ | contradiction | ];
    unfold hasExchangeUri, trySilentExchange;
    wrun_with ltac:(rewrite ?Hcard, ?Huri, ?Hrid, ?Hname, ?Hacq, ?Hexch;
                    cbn [truthyOpt];
                    rewrite ?Huri', ?Hrid', ?Hname').
  all: wfacts.
  all: match goal with
       | |- context [ {| session := _; trace := ?t ++ ?es; pending := _;
                         sched := _ |} ] =>
           assert (HT : acquiresFirst uri t)
             by (apply acquiresFirst_here; forall_events);
           set (T := t) in *; clearbody T
       end.
  all: unfold processBotReply, pushMessage, synthesizeSpeech;
    wrun_all idtac;
    repeat apply acquiresFirst_app; exact HT.
Qed.

Lemma runTurn_acquires_before_pending_witness :
  acquiresFirst (js "api://sharepoint/.default")
    (trace (snd (runTurn sampleFiller
                   (silentWorld oauthCard (replyOnly "Here are your files."))
                   (js "list my files")
                   (start [[]; [0; 0]%nat] initialSession)))).
Proof.
  apply (runTurn_acquires_before_pending sampleFiller
           (silentWorld oauthCard (replyOnly "Here are your files."))
           (js "list my files") [[]; [0; 0]%nat] initialSession
           (cardOnly oauthCard) oauthCard
           (js "api://sharepoint/.default") (js "res-42") (js "SharePoint")
           (fun _ => Resolved (Some (js "eyJ0eXAi")))
           (fun _ => Resolved (replyOnly "Here are your files.")));
    first [reflexivity | exact I].
Defined.

(** ** Interrupt, join, then playback *)

Lemma fromFiller_notReplyPlayback e : fromFiller e -> notReplyPlayback e.
Proof. destruct e as [[] ?|?|?|?]; simpl; tauto. Qed.

Lemma since_app before (holds : list Event -> Prop) t l :
  (forall a, holds a -> holds (a ++ l)) ->
  since before holds t -> since before holds (t ++ l).
Proof.
  intros H (a & -> & Ha); exists (a ++ l); split; [|auto].
  rewrite app_assoc; reflexivity.
Qed.

Lemma extend_snoc (before t a l : list Event) :
  t = before ++ a -> t ++ l = before ++ (a ++ l).
Proof. intros ->; rewrite app_assoc; reflexivity. Qed.

(** [t = before ++ ?a] for a trace [t] put together from [before] by
    the rules. *)
Ltac since_eq := repeat apply extend_snoc; symmetry; apply app_nil_r.

Lemma joinsBeforePlayback_app p b t l :
  joinsBeforePlayback p b t -> joinsBeforePlayback p b (t ++ l).
Proof.
  intros (t0 & t2 & -> & H); exists t0, (t2 ++ l); split; [|exact H].
  rewrite <- app_assoc; reflexivity.
Qed.

Lemma joinsBeforePlayback_here p b t0 :
  Forall notReplyPlayback t0 ->
  In (FillerSettled p) t0 ->
  (b = true -> In (Req Main interrupt) t0) ->
  joinsBeforePlayback p b (t0 ++ [Joined p]).
Proof. intros H1 H2 H3; exists t0, []; auto. Qed.

Lemma moves_owes e p tasks es tasks' :
  moves tasks es tasks' -> owes e p tasks -> In e es \/ owes e p tasks'.
Proof.
  intros Hm (t & Hn & Hin).
  destruct (moves_nth _ _ _ _ _ Hm Hn) as (t' & done & H1 & _ & H3 & H4).
  rewrite H3 in Hin; apply in_app_or in Hin as [Hin|Hin].
  - left; apply H4; exact Hin.
  - right; exists t'; auto.
Qed.

Lemma owes_remaining e p tasks : owes e p tasks -> In e (remaining p tasks).
Proof. intros (t & Hn & Hin); unfold remaining; rewrite Hn; exact Hin. Qed.

Lemma owes_spawned e tasks rest o :
  In e rest ->
  owes e (List.length tasks) (tasks ++ [{| todo := rest; settles := o |}]).
Proof. intros H; eexists; split; [apply nth_error_last|exact H]. Qed.

(** Membership in a trace put together by the rules. *)
Ltac in_search :=
  solve [ assumption
        | left; reflexivity
        | apply owes_remaining; assumption
        | apply in_or_app; (left; in_search) + (right; in_search)
        | right; in_search ].

(** The settlement a task owes is found among the steps taken or is
    still owed. *)
Ltac settle_debt :=
  repeat match goal with
         | Hm : moves ?p ?es ?p1, Ho : owes ?e ?q ?p |- _ =>
             destruct (moves_owes e q p es p1 Hm Ho) as [?|?]; clear Ho
         end.

(** The order of interrupt, join and playback when the interrupt, if
    any, is accepted. *)
Lemma runTurn_joins filler w userText (m : Machine) r (b : bool) :
  allTodo notReplyPlayback (pending m) ->
  truthy (trim userText) = true ->
  isProcessing (session m) = false ->
  sendCopilotMessage (optionsRef w Main) (trim userText) = Resolved r ->
  (b = true -> exists u, interruptSpeech (optionsRef w Main)
                         = Some (Resolved u)) ->
  (b = true \/ interruptSpeech (optionsRef w Main) = None) ->
  since (trace m) (joinsBeforePlayback (List.length (pending m)) b)
    (trace (snd (runTurn filler w userText m))).
Proof.
  intros Hp Hclean Hproc Hsend Hyes Hno.
  change (wp (runTurn filler w userText)
            (fun _ m' =>
               since (trace m)
                 (joinsBeforePlayback (List.length (pending m)) b)
                 (trace m')) m).
  unfold runTurn, runTurnOf; repeat wstep.
  rewrite Hclean, Hproc; cbn [negb orb].
  unfold pushMessage, runTurn_try; repeat wstep.
  match goal with
  | E : taskEvents ?p (speakFiller ?f ?w0 ?t) ?s0 = _ |- _ =>
      pose proof (speakFiller_all notReplyPlayback p f w0 t s0
                    fromFiller_notReplyPlayback) as HF;
      pose proof (speakFiller_settles p f w0 t s0) as HS;
      rewrite E in HF, HS
  end.
  inversion HF as [|? ? He Hrest]; subst.
  match goal with
  | Hmv : moves (pending m ++ [{| todo := rest; settles := ?o |}]) _ _
    |- _ =>
      pose proof (allTodo_spawned notReplyPlayback (pending m) rest o
                    Hp Hrest) as Hp0
  end.
  rewrite Hsend; cbv beta iota.
  assert (Hint : (b = true /\ exists u, interruptSpeech (optionsRef w Main)
                                        = Some (Resolved u))
                 \/ (b = false /\
                     interruptSpeech (optionsRef w Main) = None)).
  { destruct b; [left; auto|right; split; [reflexivity|]].
    destruct Hno as [?|?]; [discriminate|assumption]. }
  destruct Hint as [[-> [u Hint]]|[-> Hint]]; rewrite Hint; repeat wstep.
  all: wfacts.
  all: match goal with
       | |- context [joinsBeforePlayback ?n ?b0] =>
           match goal with
           | |- context [ {| session := _; trace := ?t; pending := _;
                             sched := _ |} ] =>
               assert (HT : since (trace m) (joinsBeforePlayback n b0) t)
           end
       end.
  1,3: eexists; split; [since_eq|];
       apply joinsBeforePlayback_app, joinsBeforePlayback_here;
       [ forall_events
       | destruct HS as [<-|HS]; [in_search|];
         match goal with
         | Hmv : moves (?pm ++ [{| todo := ?rs; settles := ?o |}]) _ _
           |- _ => apply (owes_spawned _ pm rs o) in HS
         end;
         settle_debt; in_search
       | intros; first [in_search | discriminate] ].
  all: match goal with
       | |- context [ {| session := _; trace := ?t; pending := _;
                         sched := _ |} ] => set (T := t) in *; clearbody T
       end.
  all: unfold hasExchangeUri, trySilentExchange, processBotReply, pushMessage,
         synthesizeSpeech;
       wrun_all idtac;
       repeat (apply since_app;
               [intros ?; apply joinsBeforePlayback_app|]); exact HT.
Qed.

(** C5, as stated, fails: [interruptSpeech] is optional; without it the
    backend resolves and the reply is played, but no interrupt is ever
    requested. *)
Lemma runTurn_plays_without_interrupt :
  let w := uninterruptibleWorld (replyOnly "Hi there.") in
  let out := runTurn sampleFiller w (js "hello")
               (start [[0%nat]] initialSession) in
  sendCopilotMessage (optionsRef w Main) (trim (js "hello"))
    = Resolved (replyOnly "Hi there.") /\
  In (Req Main (play_audio (js "UklGRiQ="))) (trace (snd out)) /\
  (forall b, ~ In (Req b interrupt) (trace (snd out))).
Proof.
  split; [reflexivity|]; split.
  - vm_compute; tauto.
  - intros b H; vm_compute in H.
    repeat (destruct H as [H|H]; [discriminate|]); exact H.
Qed.

(** C5, amended.  In a turn in which the backend resolves, started in
    any machine whose detached tasks (left by earlier turns) are filler
    tasks: if an [interruptSpeech] adapter is configured the callback
    requests the interrupt; if that request is accepted, or none is
    configured, the callback then waits for the filler of this turn,
    and among the events of the turn the return of that wait is
    preceded by the settlement of that filler and by the interrupt
    request (when configured) and by no playback request for the
    reply, so every such request comes after all of them; if the
    interrupt request is rejected, the turn rejects with the message
    of that rejection, status [error] and the message recorded, and no
    playback request for the reply is issued at all. *)
Theorem runTurn_playback_order :
  forall filler w userText (m : Machine) r,
    fillerTasks m ->
    truthy (trim userText) = true ->
    isProcessing (session m) = false ->
    sendCopilotMessage (optionsRef w Main) (trim userText) = Resolved r ->
    let out := runTurn filler w userText m in
    let p := List.length (pending m) in
    exists t,
      trace (snd out) = trace m ++ t /\
      match interruptSpeech (optionsRef w Main) with
      | Some (Resolved _) => joinsBeforePlayback p true t
      | Some (Rejected msg) =>
          In (Req Main interrupt) t /\ Forall notReplyPlayback t /\
          fst out = Rejected msg /\
          status (session (snd out)) = UiStatus.error /\
          error (session (snd out)) = Some msg
      | None => joinsBeforePlayback p false t
      end.
Proof.
  intros filler w userText m r Hm Hclean Hproc Hsend out p; subst out p.
  assert (Hp : allTodo notReplyPlayback (pending m)).
  { eapply allTodo_impl; [apply fromFiller_notReplyPlayback|].
    eapply fillersFrom_allTodo; exact Hm. }
  destruct (interruptSpeech (optionsRef w Main)) as [[[]|msg]|] eqn:Hint.
  - apply (runTurn_joins filler w userText m r true); auto.
    intros _; exists tt; exact Hint.
  - change (wp (runTurn filler w userText)
              (fun o m' =>
                 since (trace m)
                   (fun t => In (Req Main interrupt) t /\
                             Forall notReplyPlayback t /\
                             o = Rejected msg /\
                             status (session m') = UiStatus.error /\
                             error (session m') = Some msg)
                   (trace m')) m).
    unfold runTurn, runTurnOf; repeat wstep.
    rewrite Hclean, Hproc; cbn [negb orb].
    unfold pushMessage, runTurn_try; repeat wstep.
    match goal with
    | E : taskEvents ?p (speakFiller ?f ?w0 ?t) ?s0 = _ |- _ =>
        pose proof (speakFiller_all notReplyPlayback p f w0 t s0
                      fromFiller_notReplyPlayback) as HF;
        rewrite E in HF
    end.
    inversion HF as [|? ? He Hrest]; subst.
    match goal with
    | Hmv : moves (pending m ++ [{| todo := rest; settles := ?o |}]) _ _
      |- _ =>
        pose proof (allTodo_spawned notReplyPlayback (pending m) rest o
                      Hp Hrest) as Hp0
    end.
    rewrite Hsend; cbv beta iota.
    rewrite Hint; repeat wstep.
    wfacts.
    eexists; split; [since_eq|].
    split; [in_search|]; split; [forall_events|]; repeat split.
  - apply (runTurn_joins filler w userText m r false); auto.
    discriminate.
Qed.

Lemma runTurn_playback_order_witness :
  let w := plainWorld (replyOnly " Hi there. ") in
  let m := snd (runTurn sampleFiller offlineWorld (js "anyone there?")
                  (start [[]] initialSession)) in
  exists t,
    trace (snd (runTurn sampleFiller w (js "  hello ") m)) = trace m ++ t /\
    joinsBeforePlayback 1 true t.
Proof.
  intros w m.
  apply (runTurn_playback_order sampleFiller w (js "  hello ") m
           (replyOnly " Hi there. "));
    first [reflexivity | repeat constructor].
Defined.

(** ** The filler does not decide a turn *)

Lemma inStep_moves m1 m2 es1 p1 sc1 es2 p2 sc2 :
  inStep m1 m2 ->
  moves (pending m1) es1 p1 -> moves (pending m2) es2 p2 ->
  inStep {| session := replay es1 (session m1); trace := trace m1 ++ es1;
            pending := p1; sched := sc1 |}
         {| session := replay es2 (session m2); trace := trace m2 ++ es2;
            pending := p2; sched := sc2 |}.
Proof.
  intros (Hs & Hl & Hq1 & Hq2) H1 H2.
  destruct (moves_allTodo _ _ _ _ H1 Hq1) as [He1 Hq1'].
  destruct (moves_allTodo _ _ _ _ H2 Hq2) as [He2 Hq2'].
  repeat split; simpl; auto.
  - rewrite !replay_passive; auto.
  - rewrite (moves_length _ _ _ H1), (moves_length _ _ _ H2); exact Hl.
Qed.

Lemma inStep_yield m1 m2 : inStep m1 m2 -> inStep (yield m1) (yield m2).
Proof.
  intros H.
  destruct (yield_moves m1) as (es1 & p1 & sc1 & H1 & ->).
  destruct (yield_moves m2) as (es2 & p2 & sc2 & H2 & ->).
  apply inStep_moves; auto.
Qed.

Lemma sim_ret {A} (a : A) : sim (ret a) (ret a).
Proof. intros m1 m2 H; simpl; auto. Qed.

Lemma sim_throw {A} e : sim (@throw A e) (@throw A e).
Proof. intros m1 m2 H; simpl; auto. Qed.

Lemma sim_getSession : sim getSession getSession.
Proof.
  intros m1 m2 H; simpl; split; [|exact H].
  destruct H as (-> & _); reflexivity.
Qed.

Lemma sim_bind {A B} (c1 c2 : Async A) (k1 k2 : A -> Async B) :
  sim c1 c2 -> (forall a, sim (k1 a) (k2 a)) ->
  sim (bind c1 k1) (bind c2 k2).
Proof.
  intros Hc Hk m1 m2 H; destruct (Hc m1 m2 H) as [Ho Hs].
  unfold bind; destruct (c1 m1) as [[a|e] m1'], (c2 m2) as [[a'|e'] m2'];
    simpl in *; try discriminate.
  - injection Ho as <-; apply Hk; exact Hs.
  - injection Ho as <-; auto.
Qed.

Lemma sim_tryCatch {A} (c1 c2 : Async A) (h1 h2 : jsstring -> Async A) :
  sim c1 c2 -> (forall e, sim (h1 e) (h2 e)) ->
  sim (tryCatch c1 h1) (tryCatch c2 h2).
Proof.
  intros Hc Hh m1 m2 H; destruct (Hc m1 m2 H) as [Ho Hs].
  unfold tryCatch; destruct (c1 m1) as [[a|e] m1'], (c2 m2) as [[a'|e'] m2'];
    simpl in *; try discriminate.
  - auto.
  - injection Ho as <-; apply Hh; exact Hs.
Qed.

Lemma sim_tryFinally {A} (c1 c2 : Async A) (f1 f2 : Async unit) :
  sim c1 c2 -> sim f1 f2 -> sim (tryFinally c1 f1) (tryFinally c2 f2).
Proof.
  intros Hc Hf m1 m2 H; destruct (Hc m1 m2 H) as [Ho Hs].
  unfold tryFinally; destruct (c1 m1) as [o1 m1'], (c2 m2) as [o2 m2'];
    simpl in *; subst o2.
  destruct (Hf m1' m2' Hs) as [Ho' Hs'].
  destruct (f1 m1') as [[u|e] m1''], (f2 m2') as [[u'|e'] m2''];
    simpl in *; try discriminate; auto.
  injection Ho' as <-; auto.
Qed.

Lemma sim_set u : sim (set u) (set u).
Proof.
  intros m1 m2 (Hs & Hl & H1 & H2); simpl; rewrite Hs.
  repeat split; auto.
Qed.

Lemma sim_await {A} (o : Outcome A) : sim (await o) (await o).
Proof.
  intros m1 m2 H; unfold await; simpl; split; [reflexivity|].
  apply inStep_yield; exact H.
Qed.

Lemma sim_request {A} b1 r1 b2 r2 (o : Outcome A) :
  sim (request b1 r1 o) (request b2 r2 o).
Proof.
  intros m1 m2 (Hs & Hl & H1 & H2); unfold request, bind, emit, await; simpl.
  split; [reflexivity|]; apply inStep_yield; repeat split; auto.
Qed.

(** Two detached tasks are started, one in each run: whatever they do
    and however they end, as long as neither calls a setter the runs
    stay in step. *)
Lemma sim_spawn (t1 t2 : Async unit) :
  (forall p s, Forall passive (taskEvents p t1 s)) ->
  (forall p s, Forall passive (taskEvents p t2 s)) ->
  sim (spawn t1) (spawn t2).
Proof.
  intros Hq1 Hq2 m1 m2 (Hs & Hl & H1 & H2).
  destruct (spawn_spec t1 m1) as (e1 & r1 & E1 & ->).
  destruct (spawn_spec t2 m2) as (e2 & r2 & E2 & ->).
  specialize (Hq1 (List.length (pending m1)) (session m1)).
  specialize (Hq2 (List.length (pending m2)) (session m2)).
  rewrite E1 in Hq1; rewrite E2 in Hq2.
  inversion Hq1 as [|? ? He1 Hr1]; inversion Hq2 as [|? ? He2 Hr2]; subst.
  simpl; rewrite Hl; split; [reflexivity|].
  repeat split; simpl.
  - destruct e1, e2; simpl in *; try contradiction; exact Hs.
  - rewrite !length_app; simpl; rewrite Hl; reflexivity.
  - apply allTodo_spawned; auto.
  - apply allTodo_spawned; auto.
Qed.

(** The wait for the filler resolves in both runs, whatever the
    outcomes of the two tasks: the [catch] swallows a rejection. *)
Lemma sim_awaitFiller p : sim (awaitFiller p) (awaitFiller p).
Proof.
  intros m1 m2 (Hs & Hl & H1 & H2).
  destruct (join_spec p m1) as (es1 & p1 & sc1 & Hm1 & E1).
  destruct (join_spec p m2) as (es2 & p2 & sc2 & Hm2 & E2).
  destruct (moves_allTodo _ _ _ _ Hm1 H1) as [He1 Hq1].
  destruct (moves_allTodo _ _ _ _ Hm2 H2) as [He2 Hq2].
  pose proof (remaining_allTodo passive p p1 Hq1) as Hr1.
  pose proof (remaining_allTodo passive p p2 Hq2) as Hr2.
  unfold awaitFiller, bind, tryCatch, emit, ret; rewrite E1, E2.
  destruct (settlement p p1), (settlement p p2); simpl.
  all: split; [reflexivity|]; repeat split; simpl.
  all: rewrite ?replay_passive by assumption; auto.
  all: try (apply finished_allTodo; assumption).
  all: rewrite !finished_length, (moves_length _ _ _ Hm1),
         (moves_length _ _ _ Hm2); exact Hl.
Qed.

Lemma speakFiller_passive filler w userText p s :
  Forall passive (taskEvents p (speakFiller filler w userText) s).
Proof. apply speakFiller_all, fromFiller_passive. Qed.

Ltac sstep :=
  lazymatch goal with
  | |- sim (bind _ _) (bind _ _) => apply sim_bind; [|intros ?]
  | |- sim (tryCatch _ _) (tryCatch _ _) => apply sim_tryCatch; [|intros ?]
  | |- sim (tryFinally _ _) (tryFinally _ _) => apply sim_tryFinally
  | |- sim (ret _) (ret _) => apply sim_ret
  | |- sim (throw _) (throw _) => apply sim_throw
  | |- sim getSession getSession => apply sim_getSession
  | |- sim (set _) (set _) => apply sim_set
  | |- sim (await _) (await _) => apply sim_await
  | |- sim (request _ _ _) (request _ _ _) => apply sim_request
  | |- sim (spawn _) (spawn _) =>
      apply sim_spawn; intros ? ?; apply speakFiller_passive
  | |- sim (awaitFiller _) (awaitFiller _) => apply sim_awaitFiller
  | |- sim (match ?x with _ => _ end) (match ?x with _ => _ end) =>
      destruct x
  | |- sim (if ?x then _ else _) (if ?x then _ else _) => destruct x
  end.

Lemma runTurn_sim filler1 filler2 w1 w2 userText :
  agreeOnMain w1 w2 ->
  sim (runTurn filler1 w1 userText) (runTurn filler2 w2 userText).
Proof.
  intros (Hopts & Hfetch & Hstamp).
  unfold runTurn, runTurnOf, runTurn_try, hasExchangeUri, trySilentExchange,
    processBotReply, pushMessage, synthesizeSpeech.
  rewrite <- !Hopts.
  repeat (sstep; rewrite <- ?Hfetch, <- ?Hstamp).
Qed.

(** ** How a turn ends *)

Ltac settle_leaf :=
  simpl; rewrite <- ?app_assoc; simpl;
  repeat match goal with
         | |- _ /\ _ => split
         | |- _ = _ => reflexivity
         | |- oneExchange _ ?h (?h ++ [?a]) =>
             exists a; split; [reflexivity|]; split; [reflexivity|];
             left; reflexivity
         | |- oneExchange _ ?h (?h ++ [?a; ?b]) =>
             exists a; split; [reflexivity|]; split; [reflexivity|];
             right; exists b; split; reflexivity
         | |- settledWell _ _ \/ settledBadly _ _ =>
             first [ left; repeat split; reflexivity
                   | right; eexists; repeat split; reflexivity ]
         end.

(** What a turn leaves behind once it has passed the guard, whatever
    the adapters answer. *)
Lemma runTurnOf_settles_triple filler w userText (s : Session) :
  truthy (trim userText) = true ->
  triple (fun _ => True) (runTurnOf filler w false userText) s
    (fun o s' =>
       isProcessing s' = false /\
       isExchanging s' = isExchanging s /\
       oneExchange (trim userText) (history s) (history s') /\
       (settledWell o s' \/ settledBadly o s')).
Proof.
  intros Hclean.
  unfold runTurnOf; rewrite Hclean; cbn [negb orb].
  unfold runTurn_try, hasExchangeUri, trySilentExchange, processBotReply,
    pushMessage, synthesizeSpeech.
  trun_all idtac; settle_leaf.
Qed.

Lemma runTurn_settles_triple filler w userText (s : Session) :
  truthy (trim userText) = true ->
  isProcessing s = false ->
  triple (fun _ => True) (runTurn filler w userText) s
    (fun o s' =>
       isProcessing s' = false /\
       isExchanging s' = isExchanging s /\
       oneExchange (trim userText) (history s) (history s') /\
       (settledWell o s' \/ settledBadly o s')).
Proof.
  intros Hclean Hproc; unfold runTurn; tsteps; rewrite Hproc.
  apply runTurnOf_settles_triple; exact Hclean.
Qed.

(** Looking for a failed request of the main callback in a trace put
    together by the rules, latest first. *)
Ltac failure_found :=
  cbn [mainFailure failed];
  repeat match goal with
         | H : ?x = _ |- context [?x] => rewrite H
         end;
  first [ reflexivity
        | match goal with
          | H : negb (ok ?r) = _ |- _ =>
              destruct (ok r); first [discriminate H | reflexivity]
          end ].

Ltac ex_search :=
  lazymatch goal with
  | |- Exists _ (_ ++ _) =>
      first [ solve [apply Exists_app; right; ex_search]
            | solve [apply Exists_app; left; ex_search] ]
  | |- Exists _ (_ :: _) =>
      first [ solve [apply Exists_cons_hd; failure_found]
            | solve [apply Exists_cons_tl; ex_search] ]
  end.

(** A turn that rejects has seen one of its own requests fail. *)
Lemma runTurn_rejection_has_cause filler w userText schedule (s : Session) :
  truthy (trim userText) = true ->
  isProcessing s = false ->
  let out := runTurn filler w userText (start schedule s) in
  (exists msg, fst out = Rejected msg) ->
  Exists (mainFailure w) (trace (snd out)).
Proof.
  intros Hclean Hproc out; subst out.
  change (wp (runTurn filler w userText)
            (fun o m' =>
               (exists msg, o = Rejected msg) ->
               Exists (mainFailure w) (trace m'))
            (start schedule s)).
  unfold runTurn, runTurnOf, start; repeat wstep.
  rewrite Hproc, Hclean; cbn [negb orb].
  unfold pushMessage, runTurn_try, hasExchangeUri, trySilentExchange,
    processBotReply, pushMessage, synthesizeSpeech.
  wrun_all idtac; intros [? ?]; try discriminate.
  all: ex_search.
Qed.

Lemma runTurn_error_has_cause filler w userText schedule (s : Session) :
  truthy (trim userText) = true ->
  isProcessing s = false ->
  let out := runTurn filler w userText (start schedule s) in
  (status (session (snd out)) = UiStatus.error <->
   exists msg, fst out = Rejected msg) /\
  (status (session (snd out)) = UiStatus.error ->
   Exists (mainFailure w) (trace (snd out))).
Proof.
  intros Hclean Hproc out.
  destruct (triple_run (fun _ => True) _ s _ schedule
              (runTurn_settles_triple filler w userText s Hclean Hproc))
    as (_ & _ & _ & _ & Hend).
  fold out in Hend.
  assert (Hiff : status (session (snd out)) = UiStatus.error <->
                 exists msg, fst out = Rejected msg).
  { destruct Hend as [(Ho & Hst & _)|(msg & Ho & Hst & _)]; split.
    - rewrite Hst; discriminate.
    - intros [? H]; rewrite Ho in H; discriminate.
    - eauto.
    - intros _; exact Hst. }
  split; [exact Hiff|].
  intros Hst; apply Hiff in Hst.
  exact (runTurn_rejection_has_cause filler w userText schedule s Hclean
           Hproc Hst).
Qed.

(** C3, as stated, fails in its last part: the backend query resolves
    and no speech synthesis or playback of a reply is ever attempted,
    yet the turn rejects and the status is [error], because the silent
    acquisition of the credential throws. *)
Lemma runTurn_acquire_failure_sets_error :
  let w := lockedWorld in
  let out := runTurn None w (js "list my files") (start [] initialSession) in
  sendCopilotMessage (optionsRef w Main) (trim (js "list my files"))
    = Resolved (cardOnly oauthCard) /\
  (forall text, ~ In (Req Main (tts_fetch text)) (trace (snd out))) /\
  (forall audio, ~ In (Req Main (play_audio audio)) (trace (snd out))) /\
  fst out = Rejected (js "monitor_window_timeout") /\
  status (session (snd out)) = UiStatus.error.
Proof.
  split; [reflexivity|]; split; [|split; [|split; reflexivity]].
  - intros text H; vm_compute in H.
    repeat (destruct H as [H|H]; [discriminate|]); exact H.
  - intros audio H; vm_compute in H.
    repeat (destruct H as [H|H]; [discriminate|]); exact H.
Qed.

(** C3, amended.  What the filler does never changes a turn: two runs
    of [runTurn] on the same input and session, in worlds that answer
    the main callback alike, settle alike (both resolve, or both reject
    with the same error) and end in the same session, status included,
    whatever the filler template, whatever the filler's requests are
    answered and however the two branches are scheduled.  This rests on
    what the filler task is: it calls no state setter, and what becomes
    of its promise is swallowed by the [catch] of the wait for it.  And
    when a turn that started ends with status [error], the turn has
    rejected and one of the main callback's own requests has failed:
    the backend query, the interrupt, the silent acquisition or
    exchange of the credential, or the speech synthesis or playback of
    the reply. *)
Theorem runTurn_filler_isolated :
  forall filler1 filler2 w1 w2 userText schedule1 schedule2 (s : Session),
    agreeOnMain w1 w2 ->
    let out1 := runTurn filler1 w1 userText (start schedule1 s) in
    let out2 := runTurn filler2 w2 userText (start schedule2 s) in
    fst out1 = fst out2 /\
    session (snd out1) = session (snd out2) /\
    (truthy (trim userText) = true -> isProcessing s = false ->
     status (session (snd out1)) = UiStatus.error ->
     (exists msg, fst out1 = Rejected msg) /\
     Exists (mainFailure w1) (trace (snd out1))).
Proof.
  intros filler1 filler2 w1 w2 userText schedule1 schedule2 s Hagree out1 out2.
  destruct (runTurn_sim filler1 filler2 w1 w2 userText Hagree
              (start schedule1 s) (start schedule2 s))
    as [Ho (Hs & _)];
    [repeat split; constructor|].
  split; [exact Ho|]; split; [exact Hs|].
  intros Hclean Hproc Hst.
  destruct (runTurn_error_has_cause filler1 w1 userText schedule1 s
              Hclean Hproc) as [Hiff Hcause].
  split; [apply Hiff; exact Hst | apply Hcause; exact Hst].
Qed.

Lemma runTurn_filler_isolated_witness :
  let out1 := runTurn sampleFiller (plainWorld (replyOnly " Hi there. "))
                (js "  hello ") (start [[0%nat]; []] initialSession) in
  let out2 := runTurn sampleFiller (fillerDownWorld (replyOnly " Hi there. "))
                (js "  hello ") (start [[]; [0%nat]] initialSession) in
  fst out1 = fst out2 /\ session (snd out1) = session (snd out2).
Proof.
  destruct (runTurn_filler_isolated sampleFiller sampleFiller
              (plainWorld (replyOnly " Hi there. "))
              (fillerDownWorld (replyOnly " Hi there. "))
              (js "  hello ") [[0%nat]; []] [[]; [0%nat]] initialSession)
    as (H1 & H2 & _).
  - repeat split.
  - split; [exact H1 | exact H2].
Defined.

(** ** A callback of an earlier render *)

(** Once past the guard, a turn asks the backend. *)
Lemma runTurnOf_asks_backend filler w userText (m : Machine) :
  truthy (trim userText) = true ->
  In (Req Main (send_message (trim userText)))
    (trace (snd (runTurnOf filler w false userText m))).
Proof.
  intros Hclean.
  change (wp (runTurnOf filler w false userText)
            (fun _ m' =>
               In (Req Main (send_message (trim userText))) (trace m')) m).
  unfold runTurnOf; rewrite Hclean; cbn [negb orb].
  unfold pushMessage, runTurn_try; repeat wstep.
  match goal with
  | |- context [ {| session := _; trace := ?t ++ ?es; pending := _;
                    sched := _ |} ] =>
      assert (HT : In (Req Main (send_message (trim userText))) t)
        by (apply in_or_app; right; left; reflexivity);
      set (T := t) in *; clearbody T
  end.
  unfold hasExchangeUri, trySilentExchange, processBotReply, pushMessage,
    synthesizeSpeech.
  wrun_all idtac; repeat (apply in_or_app; left); exact HT.
Qed.

(** C1.  The guard of [runTurn] tests the flag of the render that
    created the callback, and the handler behind the microphone keeps
    the callback of the render in which listening was started.  So when
    listening was started while no turn was under way, a final
    transcript that arrives while a turn is in flight (the flag is set)
    is not dropped: a second turn runs.  It appends its user message to
    the history, asks the backend and, when it ends, clears the flag
    although the first turn may still be under way. *)
Theorem onTranscript_reenters :
  forall filler w micRender transcript schedule (s : Session),
    isProcessing micRender = false ->
    truthy (trim transcript) = true ->
    isProcessing s = true ->
    let out := onTranscript filler w micRender true (Some transcript)
                 (start schedule s) in
    oneExchange (trim transcript) (history s) (history (session (snd out))) /\
    In (Req Main (send_message (trim transcript))) (trace (snd out)) /\
    isProcessing (session (snd out)) = false.
Proof.
  intros filler w micRender transcript schedule s Hmic Hclean Hproc out.
  subst out; unfold onTranscript, onFinalTranscript; cbn [option_map andb].
  rewrite Hclean, Hmic.
  assert (Hclean' : truthy (trim (trim transcript)) = true)
    by (rewrite trim_idempotent; exact Hclean).
  destruct (triple_run (fun _ => True) _ s _ schedule
              (runTurnOf_settles_triple filler w (trim transcript) s Hclean'))
    as (_ & Hp & _ & Hh & _).
  pose proof (runTurnOf_asks_backend filler w (trim transcript)
                (start schedule s) Hclean') as Hin.
  rewrite trim_idempotent in Hh, Hin; auto.
Qed.

Lemma onTranscript_reenters_witness :
  let out := onTranscript sampleFiller (plainWorld (replyOnly "Hi there."))
               initialSession true (Some (js "and another thing"))
               (start [[0%nat]] busySession) in
  oneExchange (js "and another thing") (history busySession)
    (history (session (snd out))) /\
  In (Req Main (send_message (js "and another thing"))) (trace (snd out)) /\
  isProcessing (session (snd out)) = false.
Proof.
  apply (onTranscript_reenters sampleFiller (plainWorld (replyOnly "Hi there."))
           initialSession (js "and another thing") [[0%nat]] busySession);
    reflexivity.
Defined.


(** * Further properties of the hook and of its callers *)

(** ** The filler task, more closely *)

(** The filler task asks for nothing but the synthesis of one text and
    the playback of one audio. *)
Lemma speakFiller_requests p filler w userText s :
  Forall fillerOnly (taskEvents p (speakFiller filler w userText) s).
Proof.
  unfold taskEvents; apply Forall_app; split; [|repeat constructor].
  assert (T : triple fillerOnly (speakFiller filler w userText) s
                (fun _ _ => True)).
  { unfold speakFiller.
    destruct (truthy (FILLER_TEXT_TEMPLATE filler)); simpl; [|tsteps; exact I].
    unfold synthesizeSpeech; tsteps.
    destruct (fetch_tts w Filler _) as [resp|e]; tsteps; [|exact I].
    destruct (ok resp); simpl; tsteps.
    - destruct (body_json resp) as [[audio|]|e]; tsteps; try exact I.
      destruct (truthy audio); tsteps; try exact I.
      destruct (speakAudio _ _); tsteps; exact I.
    - destruct (body_text resp); tsteps; exact I. }
  destruct (T (solo s)) as [[Ht _] _];
    [split; constructor | reflexivity | exact Ht].
Qed.

Lemma fillerOnly_passive e : fillerOnly e -> passive e.
Proof. destruct e as [[] []|?|?|?]; simpl; auto. Qed.

(** The rule for [spawn (speakFiller ...)] under an event predicate that
    every request of the filler satisfies. *)
Ltac tspawn_sharp :=
  lazymatch goal with
  | |- triple _ (spawn _) _ _ =>
      apply triple_spawn;
      [ intros ?; eapply Forall_impl; [|apply speakFiller_requests];
        intros ? ?; split; [|apply fillerOnly_passive; assumption];
        match goal with
        | H : fillerOnly ?e |- _ =>
            revert H; destruct e as [[] []|?|?|?]; simpl; intros;
            solve [tauto | exact I | assumption]
        end
      | intros ?; cbv beta iota ]
  end.

Ltac trun_sharp := repeat first [ tstep | tspawn_sharp ].

Ltac trun_sharp_all rw :=
  repeat (progress (trun_sharp; try rw; cbv beta iota; cbn [negb orb andb];
                    try tcase)).

(** ** How a turn ends *)

(** X1.  Every started turn ends in one of two ways: it resolves with
    status [listening] and no error, or it rejects with status [error]
    and the rejection's message recorded.  Either way the re-entrancy
    flag is cleared again, [isExchanging] is untouched, and the history
    has grown by the user message and at most one assistant message. *)
Theorem runTurn_settles :
  forall filler w userText schedule (s : Session),
    truthy (trim userText) = true ->
    isProcessing s = false ->
    let out := runTurn filler w userText (start schedule s) in
    isProcessing (session (snd out)) = false /\
    isExchanging (session (snd out)) = isExchanging s /\
    oneExchange (trim userText) (history s) (history (session (snd out))) /\
    (settledWell (fst out) (session (snd out)) \/
     settledBadly (fst out) (session (snd out))).
Proof.
  intros filler w userText schedule s Hclean Hproc out.
  apply (triple_run (fun _ => True) (runTurn filler w userText) s _ schedule
           (runTurn_settles_triple filler w userText s Hclean Hproc)).
Qed.

Lemma runTurn_settles_witness :
  let out := runTurn sampleFiller offlineWorld (js "hello")
               (start [[0%nat]] (pendingSession oauthCard)) in
  isProcessing (session (snd out)) = false /\
  isExchanging (session (snd out)) = false /\
  oneExchange (trim (js "hello")) [] (history (session (snd out))) /\
  (settledWell (fst out) (session (snd out)) \/
   settledBadly (fst out) (session (snd out))).
Proof.
  apply (runTurn_settles sampleFiller offlineWorld (js "hello") [[0%nat]]
           (pendingSession oauthCard)); reflexivity.
Defined.

(** X2.  When the backend query is rejected, the turn rejects with the
    same message, status [error] and the message recorded; the history
    has gained the user message only, and a card that was pending
    before the turn is gone.  The main callback has issued no request
    but the backend query: the filler is neither interrupted nor waited
    for, so it may still be running when the turn has failed. *)
Theorem runTurn_backend_failure :
  forall filler w userText schedule (s : Session) msg,
    truthy (trim userText) = true ->
    isProcessing s = false ->
    sendCopilotMessage (optionsRef w Main) (trim userText) = Rejected msg ->
    let out := runTurn filler w userText (start schedule s) in
    Forall (onlyBackendAsked (trim userText)) (trace (snd out)) /\
    fst out = Rejected msg /\
    status (session (snd out)) = UiStatus.error /\
    error (session (snd out)) = Some msg /\
    signinCard (session (snd out)) = None /\
    isProcessing (session (snd out)) = false /\
    exists mu,
      history (session (snd out)) = history s ++ [mu] /\
      Msg.role mu = Role.user /\ Msg.text mu = trim userText.
Proof.
  intros filler w userText schedule s msg Hclean Hproc Hsend out.
  apply (triple_run (onlyBackendAsked (trim userText))
           (runTurn filler w userText) s
           (fun o s' =>
              o = Rejected msg /\
              status s' = UiStatus.error /\
              error s' = Some msg /\
              signinCard s' = None /\
              isProcessing s' = false /\
              exists mu,
                history s' = history s ++ [mu] /\
                Msg.role mu = Role.user /\ Msg.text mu = trim userText)).
  unfold runTurn, runTurnOf; trun; rewrite Hclean, Hproc; cbn [negb orb].
  unfold runTurn_try, pushMessage.
  trun_with ltac:(rewrite ?Hsend); try reflexivity.
  simpl; repeat split; eauto.
Qed.

Lemma runTurn_backend_failure_witness :
  let out := runTurn sampleFiller offlineWorld (js "hello")
               (start [[0%nat]] (pendingSession oauthCard)) in
  Forall (onlyBackendAsked (trim (js "hello"))) (trace (snd out)) /\
  fst out = Rejected (js "Failed to fetch") /\
  status (session (snd out)) = UiStatus.error /\
  error (session (snd out)) = Some (js "Failed to fetch") /\
  signinCard (session (snd out)) = None /\
  isProcessing (session (snd out)) = false /\
  exists mu,
    history (session (snd out)) = [] ++ [mu] /\
    Msg.role mu = Role.user /\ Msg.text mu = trim (js "hello").
Proof.
  apply (runTurn_backend_failure sampleFiller offlineWorld (js "hello")
           [[0%nat]] (pendingSession oauthCard) (js "Failed to fetch"));
    reflexivity.
Defined.

(** ** Cards that become pending *)

(** Closes a branch the guard of [trySilentExchange] excludes. *)
Ltac guard_excludes H :=
  exfalso; unfold canTrySilently in H;
  repeat match goal with
         | E : ?x = _ |- _ =>
             tryif constr_eq E H then fail
             else match type of H with context [x] => rewrite E in H end
         end;
  cbn [truthyOpt andb] in H;
  repeat match goal with
         | E : _ || _ = false |- _ =>
             apply orb_false_elim in E; destruct E
         | E : negb ?b = false |- _ =>
             apply negb_false_iff in E
         | E : ?x = _ |- _ =>
             tryif constr_eq E H then fail
             else match type of H with context [x] => rewrite E in H end
         end;
  cbn [truthyOpt andb] in H;
  discriminate H.

(** X3.  When the backend's reply carries a sign-in card for which the
    silent path is closed (the card lacks a non-empty URI, resource id
    or connection name, or one of the two adapters is not configured),
    the turn requests neither an acquisition nor an exchange.  When the
    turn ends the card is pending, whether the speech of the reply
    succeeds or fails, unless the interrupt was rejected: the turn then
    stops before the card is stored and no card is pending. *)
Theorem runTurn_card_without_silent_path :
  forall filler w userText schedule (s : Session) r card,
    truthy (trim userText) = true ->
    isProcessing s = false ->
    sendCopilotMessage (optionsRef w Main) (trim userText) = Resolved r ->
    Resp.signinCard r = Some card ->
    canTrySilently (optionsRef w Main) card = false ->
    let out := runTurn filler w userText (start schedule s) in
    Forall noSilentRequest (trace (snd out)) /\
    signinCard (session (snd out))
    = match interruptSpeech (optionsRef w Main) with
      | Some (Rejected _) => None
      | _ => Some card
      end.
Proof.
  intros filler w userText schedule s r card Hclean Hproc Hsend Hcard
    Hcan out.
  apply (triple_run noSilentRequest (runTurn filler w userText) s
           (fun _ s' =>
              signinCard s'
              = match interruptSpeech (optionsRef w Main) with
                | Some (Rejected _) => None
                | _ => Some card
                end)).
  unfold runTurn, runTurnOf; trun; rewrite Hclean, Hproc; cbn [negb orb].
  unfold runTurn_try, pushMessage; trun_sharp; rewrite Hsend; trun.
  destruct (interruptSpeech (optionsRef w Main)) as [[[]|?]|];
    unfold hasExchangeUri, trySilentExchange, processBotReply, pushMessage,
      synthesizeSpeech;
    trun_all ltac:(rewrite ?Hcard);
    try reflexivity; try exact I; guard_excludes Hcan.
Qed.

Lemma runTurn_card_without_silent_path_witness :
  let out := runTurn sampleFiller
               (silentWorld namelessCard (replyOnly "Here are your files."))
               (js "list my files") (start [[0; 0]%nat] initialSession) in
  Forall noSilentRequest (trace (snd out)) /\
  signinCard (session (snd out)) = Some namelessCard.
Proof.
  apply (runTurn_card_without_silent_path sampleFiller
           (silentWorld namelessCard (replyOnly "Here are your files."))
           (js "list my files") [[0; 0]%nat] initialSession
           (cardOnly namelessCard) namelessCard);
    reflexivity.
Defined.

Lemma runTurn_declined_triple filler w userText (s : Session) r card uri
    acquire token :
  truthy (trim userText) = true ->
  isProcessing s = false ->
  sendCopilotMessage (optionsRef w Main) (trim userText) = Resolved r ->
  interruptAccepted (optionsRef w Main) ->
  Resp.signinCard r = Some card ->
  canTrySilently (optionsRef w Main) card = true ->
  Card.tokenExchangeResourceUri card = Some uri ->
  acquireConnectionToken (optionsRef w Main) = Some acquire ->
  acquire uri = Resolved token ->
  truthyOpt token = false ->
  triple noExchangeRequest (runTurn filler w userText) s
    (fun _ s' => signinCard s' = Some card).
Proof.
  intros Hclean Hproc Hsend Hint Hcard Hcan Huri Hacq Htok Htok'.
  unfold canTrySilently in Hcan; rewrite Huri, Hacq in Hcan.
  destruct (Card.tokenExchangeResourceId card) as [rid|] eqn:Hrid;
    [|rewrite andb_false_r in Hcan; discriminate].
  destruct (Card.connectionName card) as [cname|] eqn:Hname;
    [|rewrite andb_false_r in Hcan; discriminate].
  destruct (exchangeConnectionToken (optionsRef w Main)) as [exchange|]
    eqn:Hexch; [|rewrite andb_false_r in Hcan; discriminate].
  cbn [truthyOpt] in Hcan; rewrite !andb_true_r in Hcan.
  apply andb_prop in Hcan as [Hcan Hname'];
    apply andb_prop in Hcan as [Huri' Hrid'].
  unfold runTurn, runTurnOf; trun; rewrite Hclean, Hproc; cbn [negb orb].
  unfold runTurn_try, pushMessage; trun_sharp; rewrite Hsend; trun.
  unfold interruptAccepted in Hint.
  destruct (interruptSpeech (optionsRef w Main)) as [[[]|?]|];
    [ | contradiction | ];
    unfold hasExchangeUri, trySilentExchange, processBotReply, pushMessage,
      synthesizeSpeech;
    trun_all ltac:(rewrite ?Hcard, ?Huri, ?Hrid, ?Hname, ?Hacq, ?Hexch;
                   cbn [truthyOpt];
                   rewrite ?Huri', ?Hrid', ?Hname', ?Htok;
                   cbn [negb orb]; rewrite ?Htok');
    try reflexivity; exact I.
Qed.

(** X4.  When the silent acquisition is attempted and comes back
    without a credential ([null], or an empty token), no exchange is
    requested and the card is pending when the turn ends, whether the
    rest of the turn succeeds or fails. *)
Theorem runTurn_consent_declined :
  forall filler w userText schedule (s : Session) r card uri acquire token,
    truthy (trim userText) = true ->
    isProcessing s = false ->
    sendCopilotMessage (optionsRef w Main) (trim userText) = Resolved r ->
    interruptAccepted (optionsRef w Main) ->
    Resp.signinCard r = Some card ->
    canTrySilently (optionsRef w Main) card = true ->
    Card.tokenExchangeResourceUri card = Some uri ->
    acquireConnectionToken (optionsRef w Main) = Some acquire ->
    acquire uri = Resolved token ->
    truthyOpt token = false ->
    let out := runTurn filler w userText (start schedule s) in
    Forall noExchangeRequest (trace (snd out)) /\
    signinCard (session (snd out)) = Some card.
Proof.
  intros filler w userText schedule s r card uri acquire token Hclean Hproc
    Hsend Hint Hcard Hcan Huri Hacq Htok Htok' out.
  apply (triple_run noExchangeRequest (runTurn filler w userText) s
           (fun _ s' => signinCard s' = Some card)).
  exact (runTurn_declined_triple filler w userText s r card uri acquire token
           Hclean Hproc Hsend Hint Hcard Hcan Huri Hacq Htok Htok').
Qed.

Lemma runTurn_consent_declined_witness :
  let out := runTurn sampleFiller (consentWorld oauthCard)
               (js "list my files") (start [[0; 0]%nat] initialSession) in
  Forall noExchangeRequest (trace (snd out)) /\
  signinCard (session (snd out)) = Some oauthCard.
Proof.
  apply (runTurn_consent_declined sampleFiller (consentWorld oauthCard)
           (js "list my files") [[0; 0]%nat] initialSession
           (cardOnly oauthCard) oauthCard (js "api://sharepoint/.default")
           (fun _ => Resolved None) None);
    first [reflexivity | exact I].
Defined.

(** X5.  A reply without text that carries a card with no silent path,
    in a turn whose interrupt is accepted (or not configured): the turn
    resolves with status [listening] and no error, the card is pending,
    and nothing is spoken: the main callback asks only for the backend
    query and the interrupt.  The card's message, trimmed, is
    appended to the history as an assistant message if it is not empty;
    otherwise the history gains the user message alone. *)
Theorem runTurn_card_only_reply :
  forall filler w userText schedule (s : Session) r card,
    truthy (trim userText) = true ->
    isProcessing s = false ->
    sendCopilotMessage (optionsRef w Main) (trim userText) = Resolved r ->
    interruptAccepted (optionsRef w Main) ->
    Resp.signinCard r = Some card ->
    canTrySilently (optionsRef w Main) card = false ->
    trim (Resp.botReply r) = [] ->
    let out := runTurn filler w userText (start schedule s) in
    Forall nothingSpoken (trace (snd out)) /\
    settledWell (fst out) (session (snd out)) /\
    signinCard (session (snd out)) = Some card /\
    exists mu,
      Msg.role mu = Role.user /\ Msg.text mu = trim userText /\
      if truthy (trim (Card.message card))
      then exists ma,
             Msg.role ma = Role.assistant /\
             Msg.text ma = trim (Card.message card) /\
             history (session (snd out)) = history s ++ [mu; ma]
      else history (session (snd out)) = history s ++ [mu].
Proof.
  intros filler w userText schedule s r card Hclean Hproc Hsend Hint Hcard
    Hcan Hreply out.
  apply (triple_run nothingSpoken (runTurn filler w userText) s
           (fun o s' =>
              settledWell o s' /\
              signinCard s' = Some card /\
              exists mu,
                Msg.role mu = Role.user /\ Msg.text mu = trim userText /\
                if truthy (trim (Card.message card))
                then exists ma,
                       Msg.role ma = Role.assistant /\
                       Msg.text ma = trim (Card.message card) /\
                       history s' = history s ++ [mu; ma]
                else history s' = history s ++ [mu])).
  assert (Hreply' : truthy (trim (Resp.botReply r)) = false)
    by (rewrite Hreply; reflexivity).
  unfold runTurn, runTurnOf; trun; rewrite Hclean, Hproc; cbn [negb orb].
  unfold runTurn_try, pushMessage; trun_sharp; rewrite Hsend; trun.
  unfold interruptAccepted in Hint.
  destruct (interruptSpeech (optionsRef w Main)) as [[[]|?]|];
    [ | contradiction | ];
    unfold hasExchangeUri, trySilentExchange, pushMessage;
    trun_sharp_all ltac:(rewrite ?Hcard, ?Hreply');
    try exact I; try solve [guard_excludes Hcan].
  all: simpl; rewrite <- ?app_assoc; simpl;
    (split; [repeat split|]); (split; [reflexivity|]);
    match goal with
    | |- context [?h ++ [?a; ?b]] =>
        exists a; split; [reflexivity|]; split; [reflexivity|];
        exists b; repeat split
    | |- context [?h ++ [?a]] => exists a; repeat split
    end.
Qed.

Lemma runTurn_card_only_reply_witness :
  let out := runTurn sampleFiller
               (silentWorld namelessCard (replyOnly "Here are your files."))
               (js "list my files") (start [[0; 0]%nat] initialSession) in
  Forall nothingSpoken (trace (snd out)) /\
  settledWell (fst out) (session (snd out)) /\
  signinCard (session (snd out)) = Some namelessCard /\
  exists mu,
    Msg.role mu = Role.user /\ Msg.text mu = trim (js "list my files") /\
    exists ma,
      Msg.role ma = Role.assistant /\
      Msg.text ma = trim (Card.message namelessCard) /\
      history (session (snd out)) = [] ++ [mu; ma].
Proof.
  apply (runTurn_card_only_reply sampleFiller
           (silentWorld namelessCard (replyOnly "Here are your files."))
           (js "list my files") [[0; 0]%nat] initialSession
           (cardOnly namelessCard) namelessCard);
    first [reflexivity | exact I].
Defined.

(** ** Answers to a card action *)

(** From [speaks w text = true]: the TTS route answers [ok] with a
    non-empty audio that the playback adapter accepts. *)
Lemma speaks_inv w text :
  speaks w text = true ->
  exists resp audio,
    fetch_tts w Main text = Resolved resp /\ ok resp = true /\
    body_json resp = Resolved (Some audio) /\ truthy audio = true /\
    speakAudio (optionsRef w Main) audio = Resolved tt.
Proof.
  unfold speaks, failed.
  destruct (fetch_tts w Main text) as [resp|] eqn:E1; simpl; [|discriminate].
  destruct (ok resp) eqn:E2; simpl; [|discriminate].
  destruct (body_json resp) as [[audio|]|] eqn:E3; simpl; try discriminate.
  destruct (truthy audio) eqn:E4; simpl; [|discriminate].
  destruct (speakAudio (optionsRef w Main) audio) as [[]|] eqn:E5; simpl;
    [|discriminate].
  intros _; exists resp, audio; auto.
Qed.

Ltac answer_leaf :=
  unfold afterAnswer;
  repeat match goal with
         | E : truthy (trim (Resp.botReply _)) = _ |- _ => rewrite E; clear E
         end;
  simpl;
  repeat match goal with
         | |- _ /\ _ => split
         | |- _ = _ => first [reflexivity | congruence]
         | |- exists ma, _ => eexists; repeat split
         | |- speaks _ _ = true -> _ =>
             let Hs := fresh "Hs" in
             intros Hs;
             destruct (speaks_inv _ _ Hs)
               as (?resp & ?audio & ?F & ?F & ?F & ?F & ?F);
             unfold speechOf in *;
             repeat match goal with
                    | E : negb _ = true |- _ => apply negb_true_iff in E
                    | E : negb _ = false |- _ => apply negb_false_iff in E
                    end;
             first [split; reflexivity | exfalso; congruence]
         end.

Lemma completeTokenExchange_answered_triple w token (s : Session) card rid
    cname exchange r :
  signinCard s = Some card ->
  Card.tokenExchangeResourceId card = Some rid -> truthy rid = true ->
  Card.connectionName card = Some cname -> truthy cname = true ->
  exchangeConnectionToken (optionsRef w Main) = Some exchange ->
  exchange {| connectionToken := token; xConnectionName := cname;
              xTokenExchangeResourceId := rid |} = Resolved r ->
  triple (fun _ => True) (completeTokenExchange w token) s
    (fun o s' =>
       o = Resolved tt /\ afterAnswer (speaks w (speechOf r)) r s s').
Proof.
  intros Hcard Hrid Hrid' Hname Hname' Hexch Hans.
  unfold completeTokenExchange, processBotReply, pushMessage, synthesizeSpeech.
  trun_sharp_all ltac:(rewrite ?Hcard, ?Hrid, ?Hname, ?Hexch, ?Hrid', ?Hname',
                         ?Hans);
    (split; [reflexivity|]); answer_leaf.
Qed.

(** X6.  With a pending card carrying a resource id and a connection
    name, when the exchange resolves, [completeTokenExchange] resolves,
    clears [isExchanging] and leaves [isProcessing] alone.  If the
    answer has text, the card is cleared and the text is appended as an
    assistant message, also when its speech then fails; if the speech
    goes through, the status is [listening] with no error.  If the
    answer has no text, the history is unchanged, the status is
    [listening], and the pending card is the card the answer carries,
    or none. *)
Theorem completeTokenExchange_answered :
  forall w token schedule (s : Session) card rid cname exchange r,
    signinCard s = Some card ->
    Card.tokenExchangeResourceId card = Some rid -> truthy rid = true ->
    Card.connectionName card = Some cname -> truthy cname = true ->
    exchangeConnectionToken (optionsRef w Main) = Some exchange ->
    exchange {| connectionToken := token; xConnectionName := cname;
                xTokenExchangeResourceId := rid |} = Resolved r ->
    let out := completeTokenExchange w token (start schedule s) in
    fst out = Resolved tt /\
    afterAnswer (speaks w (speechOf r)) r s (session (snd out)).
Proof.
  intros w token schedule s card rid cname exchange r Hcard Hrid Hrid' Hname
    Hname' Hexch Hans out.
  apply (triple_run (fun _ => True) (completeTokenExchange w token) s
           (fun o s' =>
              o = Resolved tt /\
              afterAnswer (speaks w (speechOf r)) r s s')).
  exact (completeTokenExchange_answered_triple w token s card rid cname
           exchange r Hcard Hrid Hrid' Hname Hname' Hexch Hans).
Qed.

Lemma completeTokenExchange_answered_witness :
  let out := completeTokenExchange (consentWorld oauthCard) (js "eyJ0eXAi")
               (start [] (pendingSession oauthCard)) in
  fst out = Resolved tt /\
  afterAnswer true (replyOnly "Here are your files.")
    (pendingSession oauthCard) (session (snd out)).
Proof.
  apply (completeTokenExchange_answered (consentWorld oauthCard)
           (js "eyJ0eXAi") [] (pendingSession oauthCard) oauthCard
           (js "res-42") (js "SharePoint")
           (fun _ => Resolved (replyOnly "Here are your files."))
           (replyOnly "Here are your files."));
    reflexivity.
Defined.

(** X7.  With a pending card carrying a [submitAction], [submitAllowAction]
    always resolves and clears [isExchanging].  If the backend rejects
    the submit, the status is [error], the message is recorded, and
    card and history are as before.  If it answers, the outcome is that
    of an answered token exchange: text is appended and the card
    cleared; without text the answer's card, if any, becomes the
    pending one. *)
Theorem submitAllowAction_outcome :
  forall w schedule (s : Session) card data submit,
    signinCard s = Some card ->
    Card.submitAction card = Some data ->
    submitCardAction (optionsRef w Main) = Some submit ->
    let out := submitAllowAction w (start schedule s) in
    fst out = Resolved tt /\
    match submit data with
    | Resolved r => afterAnswer (speaks w (speechOf r)) r s (session (snd out))
    | Rejected msg =>
        status (session (snd out)) = UiStatus.error /\
        error (session (snd out)) = Some msg /\
        signinCard (session (snd out)) = Some card /\
        history (session (snd out)) = history s /\
        isExchanging (session (snd out)) = false
    end.
Proof.
  intros w schedule s card data submit Hcard Hdata Hsub out.
  apply (triple_run (fun _ => True) (submitAllowAction w) s
           (fun o s' =>
              o = Resolved tt /\
              match submit data with
              | Resolved r => afterAnswer (speaks w (speechOf r)) r s s'
              | Rejected msg =>
                  status s' = UiStatus.error /\ error s' = Some msg /\
                  signinCard s' = Some card /\ history s' = history s /\
                  isExchanging s' = false
              end)).
  unfold submitAllowAction, processBotReply, pushMessage, synthesizeSpeech.
  trun_sharp_all ltac:(rewrite ?Hcard, ?Hdata, ?Hsub);
    (split; [reflexivity|]); answer_leaf.
Qed.

Lemma submitAllowAction_outcome_witness :
  let out := submitAllowAction (consentWorld allowCard)
               (start [] (pendingSession allowCard)) in
  fst out = Resolved tt /\
  afterAnswer true (replyOnly "Thanks, connected.")
    (pendingSession allowCard) (session (snd out)).
Proof.
  apply (submitAllowAction_outcome (consentWorld allowCard) []
           (pendingSession allowCard) allowCard [(js "action", js "Allow")]
           (fun _ => Resolved (replyOnly "Thanks, connected.")));
    reflexivity.
Defined.

(** ** From a declined silent attempt to the completed exchange *)

(** X8.  A card left pending by a declined silent attempt always meets
    the precondition of [completeTokenExchange]: after such a turn,
    completing the exchange with a token the backend accepts resolves
    and has the effect of an answered exchange on the session the turn
    left, with the card cleared when the answer has text. *)
Theorem consent_round_trip :
  forall filler w userText schedule (s : Session) r card uri rid cname
         acquire exchange declined token r',
    truthy (trim userText) = true ->
    isProcessing s = false ->
    sendCopilotMessage (optionsRef w Main) (trim userText) = Resolved r ->
    interruptAccepted (optionsRef w Main) ->
    Resp.signinCard r = Some card ->
    canTrySilently (optionsRef w Main) card = true ->
    Card.tokenExchangeResourceUri card = Some uri ->
    Card.tokenExchangeResourceId card = Some rid ->
    Card.connectionName card = Some cname ->
    acquireConnectionToken (optionsRef w Main) = Some acquire ->
    exchangeConnectionToken (optionsRef w Main) = Some exchange ->
    acquire uri = Resolved declined ->
    truthyOpt declined = false ->
    exchange {| connectionToken := token; xConnectionName := cname;
                xTokenExchangeResourceId := rid |} = Resolved r' ->
    let turn := runTurn filler w userText (start schedule s) in
    let out := completeTokenExchange w token (snd turn) in
    signinCard (session (snd turn)) = Some card /\
    fst out = Resolved tt /\
    afterAnswer (speaks w (speechOf r')) r' (session (snd turn))
      (session (snd out)).
Proof.
  intros filler w userText schedule s r card uri rid cname acquire exchange
    declined token r' Hclean Hproc Hsend Hint Hcard Hcan Huri Hrid Hname Hacq
    Hexch Hdecl Hdecl' Hans turn out.
  destruct (triple_start noExchangeRequest (runTurn filler w userText) s
              (fun _ s' => signinCard s' = Some card) schedule
              (runTurn_declined_triple filler w userText s r card uri acquire
                 declined Hclean Hproc Hsend Hint Hcard Hcan Huri Hacq Hdecl
                 Hdecl')) as [Hgood Hpending].
  fold turn in Hgood, Hpending.
  split; [exact Hpending|].
  assert (Hrid' : truthy rid = true /\ truthy cname = true).
  { unfold canTrySilently in Hcan; rewrite Huri, Hrid, Hname in Hcan.
    cbn [truthyOpt] in Hcan.
    destruct (truthy uri), (truthy rid), (truthy cname);
      try discriminate Hcan; auto. }
  destruct Hrid' as [Hrid' Hname'].
  exact (triple_any (completeTokenExchange w token) (session (snd turn)) _
           (snd turn)
           (completeTokenExchange_answered_triple w token
              (session (snd turn)) card rid cname exchange r' Hpending Hrid
              Hrid' Hname Hname' Hexch Hans)
           (good_passive _ _ Hgood) eq_refl).
Qed.

Lemma consent_round_trip_witness :
  let turn := runTurn sampleFiller (consentWorld oauthCard)
                (js "list my files") (start [[0; 0]%nat] initialSession) in
  let out := completeTokenExchange (consentWorld oauthCard) (js "eyJ0eXAi")
               (snd turn) in
  signinCard (session (snd turn)) = Some oauthCard /\
  fst out = Resolved tt /\
  afterAnswer true (replyOnly "Here are your files.")
    (session (snd turn)) (session (snd out)).
Proof.
  apply (consent_round_trip sampleFiller (consentWorld oauthCard)
           (js "list my files") [[0; 0]%nat] initialSession
           (cardOnly oauthCard) oauthCard (js "api://sharepoint/.default")
           (js "res-42") (js "SharePoint") (fun _ => Resolved None)
           (fun _ => Resolved (replyOnly "Here are your files.")) None
           (js "eyJ0eXAi") (replyOnly "Here are your files."));
    first [reflexivity | exact I].
Defined.

(** ** Several turns in a row *)

Lemma transcript_app h1 h2 :
  transcript (h1 ++ h2) = transcript h1 ++ transcript h2.
Proof. apply map_app. Qed.

Lemma runTurn_plain_triple filler w userText (s : Session) :
  truthy (trim userText) = true ->
  plainlyAnswered w userText ->
  interruptAccepted (optionsRef w Main) ->
  isProcessing s = false ->
  triple (fun _ => True) (runTurn filler w userText) s
    (fun o s' =>
       o = Resolved tt /\ isProcessing s' = false /\
       status s' = UiStatus.listening /\
       transcript (history s')
       = transcript (history s) ++ exchangeOf w userText).
Proof.
  intros Hclean (r & Hsend & Hreply & Hcard & Hspeaks) Hint Hproc.
  destruct (speaks_inv _ _ Hspeaks)
    as (resp & audio & Hfetch & Hok & Hjson & Haudio & Hspeak).
  unfold speechOf in Hfetch.
  unfold exchangeOf, replyTo; rewrite Hsend.
  unfold runTurn, runTurnOf; trun; rewrite Hclean, Hproc; cbn [negb orb].
  unfold pushMessage, runTurn_try; trun.
  rewrite Hsend; trun.
  unfold interruptAccepted in Hint.
  destruct (interruptSpeech (optionsRef w Main)) as [[[]|e]|];
    [ | contradiction | ];
    unfold processBotReply, pushMessage, synthesizeSpeech;
    trun_with ltac:(rewrite ?Hcard, ?Hreply, ?Hfetch, ?Hok, ?Hjson,
                      ?Haudio, ?Hspeak);
    simpl; rewrite !transcript_app; simpl; rewrite <- app_assoc;
    repeat split.
Qed.

Lemma runTurns_triple filler w inputs :
  interruptAccepted (optionsRef w Main) ->
  Forall (fun t => truthy (trim t) = true /\ plainlyAnswered w t) inputs ->
  forall s : Session,
    isProcessing s = false ->
    triple (fun _ => True) (runTurns filler w inputs) s
      (fun o s' =>
         o = Resolved tt /\
         transcript (history s')
         = transcript (history s) ++ flat_map (exchangeOf w) inputs).
Proof.
  intros Hint Hall; induction Hall as [|t rest [Hclean Hplain] Hrest IH];
    intros s Hproc; simpl.
  - apply triple_ret; rewrite app_nil_r; auto.
  - apply triple_bind.
    eapply triple_conseq;
      [exact (runTurn_plain_triple filler w t s Hclean Hplain Hint Hproc)|].
    intros o s' (-> & Hproc' & _ & Hh).
    eapply triple_conseq; [exact (IH s' Hproc')|].
    intros o' s'' (-> & Hh'); split; [reflexivity|].
    rewrite Hh', Hh, <- app_assoc; reflexivity.
Qed.

(** X9.  Turns made one after the other, each answered plainly (reply
    text, no card, speech going through), all resolve, and the history
    ends as the old one followed, input by input and in call order, by
    the trimmed input as a user message and the trimmed reply as an
    assistant message: two messages per turn. *)
Theorem runTurns_transcript :
  forall filler w inputs schedule (s : Session),
    interruptAccepted (optionsRef w Main) ->
    Forall (fun t => truthy (trim t) = true /\ plainlyAnswered w t) inputs ->
    isProcessing s = false ->
    let out := runTurns filler w inputs (start schedule s) in
    fst out = Resolved tt /\
    transcript (history (session (snd out)))
    = transcript (history s) ++ flat_map (exchangeOf w) inputs /\
    List.length (history (session (snd out)))
    = (List.length (history s) + 2 * List.length inputs)%nat.
Proof.
  intros filler w inputs schedule s Hint Hall Hproc out.
  destruct (triple_run (fun _ => True) (runTurns filler w inputs) s _ schedule
              (runTurns_triple filler w inputs Hint Hall s Hproc))
    as [_ [Ho Hh]].
  split; [exact Ho|]; split; [exact Hh|].
  apply (f_equal (@List.length _)) in Hh.
  unfold transcript in Hh; rewrite length_app, !length_map in Hh.
  fold out in Hh; rewrite Hh; f_equal.
  clear; induction inputs as [|t rest IH]; simpl; [reflexivity|].
  rewrite IH; lia.
Qed.

Lemma runTurns_transcript_witness :
  let out := runTurns sampleFiller echoWorld
               [js " hello "; js "how are you?"; js "bye"]
               (start [[0%nat]; []; [1; 1; 2]%nat] initialSession) in
  fst out = Resolved tt /\
  transcript (history (session (snd out)))
  = [] ++ flat_map (exchangeOf echoWorld)
            [js " hello "; js "how are you?"; js "bye"] /\
  List.length (history (session (snd out))) = (0 + 2 * 3)%nat.
Proof.
  apply (runTurns_transcript sampleFiller echoWorld
           [js " hello "; js "how are you?"; js "bye"]
           [[0%nat]; []; [1; 1; 2]%nat] initialSession).
  - exact I.
  - repeat constructor;
      eexists; repeat split; reflexivity.
  - reflexivity.
Defined.

(** ** The filler phrase *)

Lemma GetSubstitution_plain_head m b a c r :
  ~ isDollar c ->
  GetSubstitution m b a (c :: r) = c :: GetSubstitution m b a r.
Proof.
  unfold isDollar; intros H.
  destruct c as [|p]; [reflexivity|].
  do 6 (destruct p as [p|p|]; try reflexivity).
  all: try (exfalso; apply H; reflexivity).
Qed.

Lemma GetSubstitution_plain m b a x r :
  Forall (fun c => ~ isDollar c) x ->
  GetSubstitution m b a (x ++ r) = x ++ GetSubstitution m b a r.
Proof.
  induction 1 as [|c x Hc Hx IH]; [reflexivity|].
  rewrite <- app_comm_cons, GetSubstitution_plain_head, IH by exact Hc.
  reflexivity.
Qed.

Lemma startsWith_not_brace c rest :
  ~ isBrace c -> startsWith (js "{{input}}") (c :: rest) = false.
Proof.
  unfold isBrace; intros H.
  change (startsWith (js "{{input}}") (c :: rest))
    with ((123 =? c)%N
          && startsWith [123; 105; 110; 112; 117; 116; 125; 125]%N rest).
  destruct (N.eqb_spec 123 c) as [E|E]; [congruence|reflexivity].
Qed.

Lemma replaceAll_from_plain repl l :
  Forall (fun c => ~ isBrace c) l ->
  forall before rest,
    replaceAll_from (js "{{input}}") repl 0 before (l ++ rest)
    = l ++ replaceAll_from (js "{{input}}") repl 0 (rev l ++ before) rest.
Proof.
  induction 1 as [|c l Hc Hl IH]; intros before rest; [reflexivity|].
  rewrite <- app_comm_cons.
  change (replaceAll_from (js "{{input}}") repl 0 before (c :: l ++ rest))
    with (if startsWith (js "{{input}}") (c :: l ++ rest)
          then GetSubstitution (js "{{input}}") (rev before)
                 (skipn (List.length (js "{{input}}")) (c :: l ++ rest)) repl
               ++ replaceAll_from (js "{{input}}") repl
                    (List.length (js "{{input}}") - 1) (c :: before)
                    (l ++ rest)
          else c :: replaceAll_from (js "{{input}}") repl 0 (c :: before)
                      (l ++ rest)).
  rewrite (startsWith_not_brace c (l ++ rest) Hc), IH.
  simpl rev; rewrite <- app_assoc; reflexivity.
Qed.

Lemma replaceAll_from_skip needle repl l :
  forall before rest,
    replaceAll_from needle repl (List.length l) before (l ++ rest)
    = replaceAll_from needle repl 0 (rev l ++ before) rest.
Proof.
  induction l as [|c l IH]; intros before rest; [reflexivity|].
  simpl; rewrite IH, <- app_assoc; reflexivity.
Qed.

Lemma replaceAll_from_match repl before post :
  replaceAll_from (js "{{input}}") repl 0 before (js "{{input}}" ++ post)
  = GetSubstitution (js "{{input}}") (rev before) post repl
    ++ replaceAll_from (js "{{input}}") repl 0
         (rev (js "{{input}}") ++ before) post.
Proof.
  change (js "{{input}}") with ([123; 123; 105; 110; 112; 117; 116; 125; 125]%N).
  change (replaceAll_from [123; 123; 105; 110; 112; 117; 116; 125; 125]%N
            repl 0 before
            ([123; 123; 105; 110; 112; 117; 116; 125; 125]%N ++ post))
    with (GetSubstitution [123; 123; 105; 110; 112; 117; 116; 125; 125]%N
            (rev before) post repl
          ++ replaceAll_from [123; 123; 105; 110; 112; 117; 116; 125; 125]%N
               repl (List.length [123; 105; 110; 112; 117; 116; 125; 125]%N)
               (123%N :: before)
               ([123; 105; 110; 112; 117; 116; 125; 125]%N ++ post)).
  rewrite replaceAll_from_skip; reflexivity.
Qed.

Lemma includes_placeholder pre post :
  includes (js "{{input}}") (pre ++ js "{{input}}" ++ post) = true.
Proof.
  induction pre as [|c pre IH].
  - destruct post; reflexivity.
  - rewrite <- app_comm_cons.
    change (includes (js "{{input}}") (c :: pre ++ js "{{input}}" ++ post))
      with (startsWith (js "{{input}}") (c :: pre ++ js "{{input}}" ++ post)
            || includes (js "{{input}}") (pre ++ js "{{input}}" ++ post)).
    rewrite IH; apply orb_true_r.
Qed.

(** What [replaceAll] makes of a template with one placeholder. *)
Lemma replaceAll_one_placeholder repl pre post :
  Forall (fun c => ~ isBrace c) pre ->
  Forall (fun c => ~ isBrace c) post ->
  replaceAll (js "{{input}}") repl (pre ++ js "{{input}}" ++ post)
  = pre ++ GetSubstitution (js "{{input}}") pre post repl ++ post.
Proof.
  intros Hpre Hpost; unfold replaceAll.
  rewrite (replaceAll_from_plain repl pre Hpre), replaceAll_from_match.
  rewrite app_nil_r, rev_involutive.
  rewrite <- (app_nil_r post) at 2.
  rewrite (replaceAll_from_plain repl post Hpost).
  rewrite !app_nil_r; reflexivity.
Qed.

Lemma FILLER_TEXT_TEMPLATE_blank filler :
  match filler with
  | Some t => forallb isWhiteSpace t = true
  | None => True
  end ->
  truthy (FILLER_TEXT_TEMPLATE filler) = false.
Proof.
  unfold FILLER_TEXT_TEMPLATE; destruct filler as [t|]; [|reflexivity].
  intros H; rewrite (trim_all_space t H); reflexivity.
Qed.

Lemma speakFiller_disabled p filler w userText s :
  truthy (FILLER_TEXT_TEMPLATE filler) = false ->
  taskEvents p (speakFiller filler w userText) s = [FillerSettled p].
Proof. intros H; unfold taskEvents, speakFiller; rewrite H; reflexivity. Qed.

Lemma speakFiller_first_request p filler w userText s :
  truthy (FILLER_TEXT_TEMPLATE filler) = true ->
  hd_error (taskEvents p (speakFiller filler w userText) s)
  = Some (Req Filler
            (tts_fetch (fillerTextOf (FILLER_TEXT_TEMPLATE filler) userText))).
Proof.
  intros H; unfold taskEvents.
  change (wp (speakFiller filler w userText)
            (fun _ m' =>
               hd_error (trace m' ++ [FillerSettled p])
               = Some (Req Filler
                         (tts_fetch
                            (fillerTextOf (FILLER_TEXT_TEMPLATE filler)
                               userText))))
            (solo s)).
  unfold speakFiller, solo; rewrite H; cbn [negb].
  unfold synthesizeSpeech.
  wrun_all idtac; reflexivity.
Qed.

(** X10.  Without a filler template (the variable is unset, empty or
    blank) no turn issues any request in the name of the filler,
    whatever the input, the adapters' answers and the schedule. *)
Theorem runTurn_filler_disabled :
  forall filler w userText schedule (s : Session),
    match filler with
    | Some t => forallb isWhiteSpace t = true
    | None => True
    end ->
    Forall noFillerRequest
      (trace (snd (runTurn filler w userText (start schedule s)))).
Proof.
  intros filler w userText schedule s Hblank.
  apply FILLER_TEXT_TEMPLATE_blank in Hblank.
  apply (triple_run noFillerRequest (runTurn filler w userText) s
           (fun _ _ => True)).
  unfold runTurn, runTurnOf; tsteps.
  destruct (negb (truthy (trim userText)) || isProcessing s);
    [tsteps; exact I|].
  unfold runTurn_try, pushMessage; tsteps.
  apply triple_spawn;
    [intros p; rewrite (speakFiller_disabled p _ _ _ _ Hblank);
     repeat constructor
    |intros p].
  unfold hasExchangeUri, trySilentExchange, processBotReply, pushMessage,
    synthesizeSpeech.
  trun_sharp_all idtac; exact I.
Qed.

Lemma runTurn_filler_disabled_witness :
  Forall noFillerRequest
    (trace (snd (runTurn (Some (js "   ")) (plainWorld (replyOnly "Hi.")) (js "hello")
                   (start [[0; 0]%nat] initialSession)))).
Proof.
  apply (runTurn_filler_disabled (Some (js "   ")) (plainWorld (replyOnly "Hi.")) (js "hello")
           [[0; 0]%nat] initialSession); reflexivity.
Defined.

(** X11.  The filler task never rejects and never changes the session,
    whatever the synthesis route and the avatar answer: it resolves
    from every machine, none of its own steps calls a state setter, and
    run next to detached tasks that call no setter either (as the
    filler tasks of other turns) it leaves the session as it was. *)
Theorem speakFiller_swallows_failures :
  forall filler w userText (m : Machine),
    fst (speakFiller filler w userText m) = Resolved tt /\
    (forall p s,
       Forall passive (taskEvents p (speakFiller filler w userText) s)) /\
    (allTodo passive (pending m) ->
     session (snd (speakFiller filler w userText m)) = session m).
Proof.
  intros filler w userText m; repeat split.
  - change (wp (speakFiller filler w userText)
              (fun o _ => o = Resolved tt) m).
    unfold speakFiller, synthesizeSpeech.
    wrun_all idtac;
      repeat match goal with x : unit |- _ => destruct x end;
      reflexivity.
  - intros p s; apply speakFiller_passive.
  - intros Hm.
    apply (triple_any (speakFiller filler w userText) (session m)
             (fun _ s' => s' = session m) m);
      [|exact Hm|reflexivity].
    unfold speakFiller, synthesizeSpeech.
    trun_sharp_all idtac; reflexivity.
Qed.

Lemma speakFiller_swallows_failures_witness :
  let out := speakFiller sampleFiller offlineWorld (js "hello")
               (start [] initialSession) in
  fst out = Resolved tt /\ session (snd out) = initialSession.
Proof.
  destruct (speakFiller_swallows_failures sampleFiller offlineWorld
              (js "hello") (start [] initialSession)) as (H1 & _ & H2).
  split; [exact H1|apply H2; constructor].
Defined.

Lemma fillerLeads_app ft clean t l :
  fillerLeads ft clean t -> fillerLeads ft clean (t ++ l).
Proof.
  intros (b & a & ->); exists b, (a ++ l).
  rewrite <- app_assoc; reflexivity.
Qed.

(** With a template, a started turn requests the synthesis of the
    filler text right before it asks the backend. *)
Lemma runTurn_fillerLeads filler w userText schedule (s : Session) :
  truthy (trim userText) = true ->
  isProcessing s = false ->
  truthy (FILLER_TEXT_TEMPLATE filler) = true ->
  fillerLeads (fillerTextOf (FILLER_TEXT_TEMPLATE filler) (trim userText))
    (trim userText)
    (trace (snd (runTurn filler w userText (start schedule s)))).
Proof.
  intros Hclean Hproc Hon.
  change (wp (runTurn filler w userText)
            (fun _ m' =>
               fillerLeads
                 (fillerTextOf (FILLER_TEXT_TEMPLATE filler) (trim userText))
                 (trim userText) (trace m'))
            (start schedule s)).
  unfold runTurn, runTurnOf, start; repeat wstep.
  rewrite Hclean, Hproc; cbn [negb orb].
  unfold pushMessage, runTurn_try; repeat wstep.
  match goal with
  | E : taskEvents ?p (speakFiller ?f ?w0 ?t) ?s0 = _ |- _ =>
      pose proof (speakFiller_first_request p f w0 t s0 Hon) as HF;
      rewrite E in HF; injection HF as ->; clear E
  end.
  match goal with
  | |- context [ {| session := _; trace := ?t ++ ?es; pending := _;
                    sched := _ |} ] =>
      assert (HT : fillerLeads
                     (fillerTextOf (FILLER_TEXT_TEMPLATE filler)
                        (trim userText)) (trim userText) t)
        by (eexists _, []; rewrite <- app_assoc; reflexivity);
      set (T := t) in *; clearbody T
  end.
  unfold hasExchangeUri, trySilentExchange, processBotReply, pushMessage,
    synthesizeSpeech.
  wrun_all idtac; cbn [trace]; repeat apply fillerLeads_app; exact HT.
Qed.

Lemma Forall_firstn {A} (P : A -> Prop) k (l : list A) :
  Forall P l -> Forall P (firstn k l).
Proof.
  intros H; rewrite <- (firstn_skipn k l) in H.
  apply Forall_app in H; tauto.
Qed.

Lemma truncateInput_units (P : N -> Prop) userText :
  Forall P userText -> P 46%N -> Forall P (truncateInput userText).
Proof.
  intros H Hdot; unfold truncateInput, slice0.
  destruct (80 <? List.length userText)%nat; [|exact H].
  apply Forall_app; split; [apply Forall_firstn; exact H|].
  repeat constructor; exact Hdot.
Qed.

Lemma truncateInput_length userText :
  (List.length (truncateInput userText) <= 83)%nat /\
  ((List.length userText <= 80)%nat -> truncateInput userText = userText).
Proof.
  unfold truncateInput, slice0.
  destruct (Nat.ltb_spec 80 (List.length userText)) as [H|H].
  - split; [|lia].
    rewrite length_app, length_firstn.
    change (List.length (js "...")) with 3%nat; lia.
  - split; [lia|reflexivity].
Qed.

Ltac plain_units :=
  cbv;
  solve [ repeat first [ apply Forall_nil
                       | apply Forall_cons; [intro; discriminate|] ] ].

(** X12.  With a template that has the placeholder once (no other brace
    in it) and an input without dollar signs, a started turn asks for
    the synthesis of the template with the placeholder replaced by the
    trimmed input, cut after 80 code units and then followed by three
    dots, right before it asks the backend. *)
Theorem runTurn_filler_phrase :
  forall filler w userText schedule (s : Session) pre post,
    truthy (trim userText) = true ->
    isProcessing s = false ->
    FILLER_TEXT_TEMPLATE filler = pre ++ js "{{input}}" ++ post ->
    Forall (fun c => ~ isBrace c) pre ->
    Forall (fun c => ~ isBrace c) post ->
    Forall (fun c => ~ isDollar c) (trim userText) ->
    fillerLeads (pre ++ truncateInput (trim userText) ++ post)
      (trim userText)
      (trace (snd (runTurn filler w userText (start schedule s)))) /\
    (List.length (truncateInput (trim userText)) <= 83)%nat /\
    ((List.length (trim userText) <= 80)%nat ->
     truncateInput (trim userText) = trim userText).
Proof.
  intros filler w userText schedule s pre post Hclean Hproc Htpl Hpre Hpost
    Hplain.
  split; [|apply truncateInput_length].
  assert (Hon : truthy (FILLER_TEXT_TEMPLATE filler) = true)
    by (rewrite Htpl; destruct pre; reflexivity).
  pose proof (runTurn_fillerLeads filler w userText schedule s Hclean Hproc
                Hon) as H.
  unfold fillerTextOf in H.
  rewrite Htpl, includes_placeholder,
    (replaceAll_one_placeholder _ pre post Hpre Hpost) in H.
  rewrite <- (app_nil_r (truncateInput (trim userText))) in H at 1.
  rewrite GetSubstitution_plain in H
    by (apply truncateInput_units; [exact Hplain | intro; discriminate]).
  simpl GetSubstitution in H; rewrite app_nil_r in H; exact H.
Qed.

Lemma runTurn_filler_phrase_witness :
  fillerLeads (js "Let me look into hello...") (js "hello")
    (trace (snd (runTurn sampleFiller (plainWorld (replyOnly "Hi."))
                   (js " hello ") (start [[0%nat]] initialSession)))).
Proof.
  apply (runTurn_filler_phrase sampleFiller (plainWorld (replyOnly "Hi."))
           (js " hello ") [[0%nat]] initialSession
           (js "Let me look into ") (js "..."));
    first [reflexivity | plain_units].
Defined.

(** X13.  The input is used as a replacement pattern, not as plain
    text.  With a template that has the placeholder once (no other brace
    in it) and a trimmed input of at most 80 code units of the form
    [x ++ "$&" ++ y], where [x] and [y] have no dollar sign, a started
    turn asks for the synthesis of the template with the placeholder
    replaced by [x], the placeholder itself and [y], right before it
    asks the backend: the dollar and the ampersand of the input are not
    spoken, the matched text stands in their place. *)
Theorem runTurn_filler_pattern :
  forall filler w userText schedule (s : Session) pre post x y,
    truthy (trim userText) = true ->
    isProcessing s = false ->
    FILLER_TEXT_TEMPLATE filler = pre ++ js "{{input}}" ++ post ->
    Forall (fun c => ~ isBrace c) pre ->
    Forall (fun c => ~ isBrace c) post ->
    trim userText = x ++ js "$&" ++ y ->
    Forall (fun c => ~ isDollar c) x ->
    Forall (fun c => ~ isDollar c) y ->
    (List.length (trim userText) <= 80)%nat ->
    fillerLeads (pre ++ (x ++ js "{{input}}" ++ y) ++ post)
      (trim userText)
      (trace (snd (runTurn filler w userText (start schedule s)))).
Proof.
  intros filler w userText schedule s pre post x y Hclean Hproc Htpl Hpre
    Hpost Hdollar Hx Hy Hlen.
  assert (Hon : truthy (FILLER_TEXT_TEMPLATE filler) = true)
    by (rewrite Htpl; destruct pre; reflexivity).
  pose proof (runTurn_fillerLeads filler w userText schedule s Hclean Hproc
                Hon) as H.
  unfold fillerTextOf in H.
  rewrite Htpl, includes_placeholder,
    (replaceAll_one_placeholder _ pre post Hpre Hpost) in H.
  rewrite (proj2 (truncateInput_length (trim userText)) Hlen) in H.
  rewrite Hdollar in H at 1.
  rewrite (GetSubstitution_plain _ _ _ x _ Hx) in H.
  change (GetSubstitution (js "{{input}}") pre post (js "$&" ++ y))
    with (js "{{input}}" ++ GetSubstitution (js "{{input}}") pre post y)
    in H.
  rewrite <- (app_nil_r y) in H at 1.
  rewrite (GetSubstitution_plain _ _ _ y _ Hy) in H.
  simpl GetSubstitution in H; rewrite app_nil_r in H; exact H.
Qed.

Lemma runTurn_filler_pattern_witness :
  fillerLeads (js "Let me look into a {{input}} b...") (js "a $& b")
    (trace (snd (runTurn sampleFiller (plainWorld (replyOnly "Hi."))
                   (js "a $& b") (start [[0%nat]] initialSession)))).
Proof.
  apply (runTurn_filler_pattern sampleFiller (plainWorld (replyOnly "Hi."))
           (js "a $& b") [[0%nat]] initialSession
           (js "Let me look into ") (js "...") (js "a ") (js " b"));
    first [reflexivity | plain_units | cbv; lia].
Defined.


(** ** Trimming *)

(** X14.  Only the trimmed input matters: a turn run on an input and a
    turn run on the same input already trimmed do the same, from every
    machine. *)
Theorem runTurn_trims_input :
  forall filler w userText (m : Machine),
    runTurn filler w (trim userText) m = runTurn filler w userText m.
Proof.
  intros filler w userText m; unfold runTurn, runTurnOf.
  rewrite trim_idempotent; reflexivity.
Qed.


(** ** What is never sent empty *)

Lemma orElse_truthy speechText displayText :
  truthy displayText = true -> truthy (orElse speechText displayText) = true.
Proof.
  intros H; unfold orElse; destruct speechText as [t|]; [|exact H].
  destruct (truthy t) eqn:E; [exact E|exact H].
Qed.

Ltac nonempty_leaf :=
  try exact I;
  simpl;
  repeat match goal with
         | H : negb _ = false |- _ => apply negb_false_iff in H
         | H : negb _ = true |- _ => apply negb_true_iff in H
         | H : _ || _ = false |- _ => apply orb_false_iff in H as [? ?]
         end;
  repeat split;
  first [ assumption
        | apply orElse_truthy; assumption
        | match goal with
          | H : truthyOpt ?x = true |- _ =>
              destruct x; simpl in H |- *; [assumption|discriminate]
          end ].

Lemma speakFiller_neverEmpty p filler w userText s :
  Forall neverEmpty (taskEvents p (speakFiller filler w userText) s).
Proof.
  unfold taskEvents; apply Forall_app; split; [|repeat constructor].
  assert (T : triple neverEmpty (speakFiller filler w userText) s
                (fun _ _ => True)).
  { unfold speakFiller, synthesizeSpeech.
    trun_sharp_all idtac; nonempty_leaf. }
  destruct (T (solo s)) as [[Ht _] _];
    [split; constructor | reflexivity | exact Ht].
Qed.

Lemma Forall_both {A} (P Q : A -> Prop) (l : list A) :
  Forall P l -> Forall Q l -> Forall (fun e => P e /\ Q e) l.
Proof.
  intros HP; induction HP as [|a l Ha Hl IH]; intros HQ;
    inversion HQ; subst; constructor; auto.
Qed.

(** X15.  Whatever the input, the adapters' answers and the schedule, a
    turn sends no empty text to the backend or to the synthesis route in
    its own name, plays no empty audio, asks for no token with an empty
    scope and exchanges no empty token, connection name or resource
    id. *)
Theorem runTurn_sends_nothing_empty :
  forall filler w userText schedule (s : Session),
    Forall neverEmpty
      (trace (snd (runTurn filler w userText (start schedule s)))).
Proof.
  intros filler w userText schedule s.
  apply (triple_run neverEmpty (runTurn filler w userText) s
           (fun _ _ => True)).
  unfold runTurn, runTurnOf; tsteps.
  destruct (negb (truthy (trim userText)) || isProcessing s) eqn:Hguard;
    [tsteps; exact I|].
  unfold runTurn_try, pushMessage; tsteps.
  apply triple_spawn;
    [intros p; apply Forall_both;
     [apply speakFiller_neverEmpty|apply speakFiller_passive]
    |intros p].
  unfold hasExchangeUri, trySilentExchange, processBotReply, pushMessage,
    synthesizeSpeech.
  trun_sharp_all idtac; nonempty_leaf.
Qed.


(** * The page *)

(** X16.  Whenever the page shows the status [error], its error text
    is not [null].  The converse fails: when the sign-in hook alone
    reports an error, the error text is that error, but the status is
    not [error]. *)
Theorem derivedStatus_error_has_text :
  forall c s,
    (derivedStatus c s = UiStatus.error -> errorText c s <> None) /\
    (forall t,
       quiet c -> localError c = None -> msalError c = Some t ->
       truthyOpt (error s) = false ->
       errorText c s = Some t /\ derivedStatus c s <> UiStatus.error).
Proof.
  intros c s; split.
  - unfold derivedStatus, errorText.
    destruct (localError c), (msalError c), (avatarError c), (copilotError c),
      (deepgramError c), (error s); simpl; try discriminate.
    destruct (sessionStatus c), (copilotInitializing c), (msalInitializing c),
      (status s), (deepgramListening c), (isSessionActive c); discriminate.
  - intros t (Hl & Ha & Hc & Hd & Hr & Hs & Hci & Hmi) Hloc Hmsal Herr.
    unfold errorText, derivedStatus.
    rewrite Hloc, Hmsal, Ha, Hc, Hd, Herr, Hci, Hmi; simpl.
    split; [reflexivity|].
    destruct (sessionStatus c), (status s), (deepgramListening c),
      (isSessionActive c); simpl; congruence.
Qed.

(** X17.  What the page shows after a turn, when no other hook reports
    an error and nothing is being set up: after a turn that resolved,
    [listening] or [idle] according to the microphone (the hook's own
    [listening] is not shown); after a turn that rejected, [error] if the
    rejection's message is not empty, and otherwise the same as after a
    success. *)
Theorem derivedStatus_after_turn :
  forall filler w userText schedule (s : Session) c,
    truthy (trim userText) = true ->
    isProcessing s = false ->
    quiet c ->
    let out := runTurn filler w userText (start schedule s) in
    derivedStatus c (session (snd out))
    = match fst out with
      | Resolved _ => atRest c
      | Rejected msg => if truthy msg then UiStatus.error else atRest c
      end.
Proof.
  intros filler w userText schedule s c Hclean Hproc
    (Hl & Ha & Hc & Hd & Hr & Hs & Hci & Hmi) out.
  destruct (triple_run (fun _ => True) (runTurn filler w userText) s _
              schedule
              (runTurn_settles_triple filler w userText s Hclean Hproc))
    as (_ & _ & _ & _ & Hend).
  fold out in Hend.
  unfold derivedStatus, atRest; rewrite Hl, Ha, Hc, Hd, Hci, Hmi.
  destruct Hend as [(-> & Hst & Herr)|(msg & -> & Hst & Herr)];
    rewrite Hst, Herr; cbn [truthyOpt orb].
  - destruct (sessionStatus c), (deepgramListening c), (isSessionActive c);
      try reflexivity; congruence.
  - destruct (truthy msg); [reflexivity|].
    destruct (sessionStatus c), (deepgramListening c), (isSessionActive c);
      try reflexivity; congruence.
Qed.

Lemma derivedStatus_after_turn_witness :
  derivedStatus (runningSession false)
    (session (snd (runTurn sampleFiller offlineWorld (js "hello")
                     (start [[0%nat]] initialSession))))
  = UiStatus.error.
Proof.
  apply (derivedStatus_after_turn sampleFiller offlineWorld (js "hello")
           [[0%nat]] initialSession (runningSession false));
    first [reflexivity | repeat split; discriminate].
Defined.

(** X18.  Submitting a non-blank manual input while no turn is under
    way never rejects and clears the input.  It runs one turn on the
    trimmed input, and what it leaves follows that turn's outcome: if
    the turn resolves, the status is [idle] when the microphone is off
    and [listening] when it is on, and no error is recorded; if the turn
    rejects, the status is [error] and the recorded error is the
    rejection's message. *)
Theorem submitManualText_outcome :
  forall filler w manualInput isListening schedule (s : Session),
    truthy (trim manualInput) = true ->
    isProcessing s = false ->
    let turn := runTurn filler w (trim manualInput) (start schedule s) in
    let out := submitManualText filler w manualInput isListening
                 (start schedule s) in
    fst out = Resolved [] /\
    isProcessing (session (snd out)) = false /\
    oneExchange (trim manualInput) (history s) (history (session (snd out))) /\
    match fst turn with
    | Resolved _ =>
        status (session (snd out))
        = (if isListening then UiStatus.listening else UiStatus.idle) /\
        error (session (snd out)) = None
    | Rejected msg =>
        status (session (snd out)) = UiStatus.error /\
        error (session (snd out)) = Some msg
    end.
Proof.
  intros filler w manualInput isListening schedule s Hclean Hproc turn out.
  assert (Hclean' : truthy (trim (trim manualInput)) = true)
    by (rewrite trim_idempotent; exact Hclean).
  pose proof (triple_run (fun _ => True)
                (runTurn filler w (trim manualInput)) s _ schedule
                (runTurn_settles_triple filler w (trim manualInput) s
                   Hclean' Hproc)) as (_ & Hp & _ & Hh & Hend).
  rewrite trim_idempotent in Hh.
  fold turn in Hp, Hh, Hend.
  subst out; unfold submitManualText; rewrite Hclean; cbn [negb].
  unfold bind, tryCatch; cbv beta; fold turn.
  destruct turn as [o m'];
    destruct Hend as [(Ho & Hst & Herr)|(msg & Ho & Hst & Herr)];
    cbn [fst snd] in *; subst o.
  - destruct isListening; cbn [negb]; simpl; auto.
  - simpl; auto.
Qed.

Lemma submitManualText_outcome_witness :
  let out := submitManualText sampleFiller offlineWorld (js " hello ") false
               (start [[0%nat]] initialSession) in
  fst out = Resolved [] /\
  isProcessing (session (snd out)) = false /\
  oneExchange (js "hello") [] (history (session (snd out))) /\
  status (session (snd out)) = UiStatus.error /\
  error (session (snd out)) = Some (js "Failed to fetch").
Proof.
  apply (submitManualText_outcome sampleFiller offlineWorld (js " hello ")
           false [[0%nat]] initialSession); reflexivity.
Defined.

(** X19.  Submitting a non-blank manual input while a turn is under
    way (the Enter key is not disabled then) sends nothing: the input is
    cleared and dropped, and with the microphone off the status of the
    running turn is overwritten with [idle]. *)
Theorem submitManualText_while_processing :
  forall filler w manualInput isListening (m : Machine),
    truthy (trim manualInput) = true ->
    isProcessing (session m) = true ->
    submitManualText filler w manualInput isListening m
    = (Resolved [],
       if isListening then m
       else {| session := apply (setStatus UiStatus.idle) (session m);
               trace := trace m ++ [Set_ (setStatus UiStatus.idle)];
               pending := pending m; sched := sched m |}).
Proof.
  intros filler w manualInput isListening m Hclean Hproc.
  unfold submitManualText; rewrite Hclean; cbn [negb].
  unfold runTurn, runTurnOf, bind, tryCatch, getSession; cbn [fst snd].
  rewrite Hproc, orb_true_r.
  destruct isListening; reflexivity.
Qed.

Lemma submitManualText_while_processing_witness :
  submitManualText sampleFiller (plainWorld (replyOnly "Hi."))
    (js "are you there?") false (start [] (busySession))
  = (Resolved [],
     {| session := apply (setStatus UiStatus.idle) busySession;
        trace := [Set_ (setStatus UiStatus.idle)];
        pending := []; sched := [] |}).
Proof.
  apply (submitManualText_while_processing sampleFiller
           (plainWorld (replyOnly "Hi.")) (js "are you there?") false
           (start [] busySession)); reflexivity.
Defined.

